(** * service/models.py: the Account and Product record mapping

    A shallow embedding of [service/models.py].  Python objects are passed
    by value; a method that mutates [self] is a computation over the
    instance, and an exception leaves the mutations made before it in
    place.  The relational engine behind [db.session] is a table of rows
    together with the sequence that generates primary keys. *)

From Stdlib Require Import ZArith NArith Ascii String List Lia.
From stdpp Require Import base option list gmap strings fin_maps.

Set Warnings "-register-all,-abstract-large-number".

Local Open Scope string_scope.
Local Open Scope nat_scope.
Local Open Scope list_scope.

(** ** Calendar dates ([datetime.date]) *)

Record date := mkDate { year : nat; month : nat; day : nat }.

Definition is_leap (y : nat) : bool :=
  (y mod 4 =? 0) && (negb (y mod 100 =? 0) || (y mod 400 =? 0)).

Definition days_in_month (y m : nat) : nat :=
  match m with
  | 2 => if is_leap y then 29 else 28
  | 4 | 6 | 9 | 11 => 30
  | _ => 31
  end.

(** What the [date] constructor checks: MINYEAR = 1, MAXYEAR = 9999. *)
Definition check_date_args (y m d : nat) : bool :=
  (1 <=? y) && (y <=? 9999) && (1 <=? m) && (m <=? 12)
  && (1 <=? d) && (d <=? days_in_month y m).

Definition valid_date (d : date) : Prop :=
  check_date_args (year d) (month d) (day d) = true.

(** Decimal digits, least significant first. *)
Fixpoint digits_le (fuel n : nat) : list nat :=
  match fuel with
  | O => []
  | S f => if n <? 10 then [n] else (n mod 10) :: digits_le f (n / 10)
  end.

Definition digit_char (k : nat) : ascii := ascii_of_nat (48 + k).

Definition digit_value (c : ascii) : option nat :=
  let n := nat_of_ascii c in
  if (48 <=? n) && (n <=? 57) then Some (n - 48) else None.

(** ["%0<w>d" % n] *)
Definition zero_padded (w n : nat) : list ascii :=
  let ds := digit_char <$> rev (digits_le (S n) n) in
  replicate (w - length ds) "0"%char ++ ds.

(** [date.isoformat()]: ["%04d-%02d-%02d"]. *)
Definition isoformat (d : date) : string :=
  string_of_list_ascii
    (zero_padded 4 (year d) ++ "-"%char :: zero_padded 2 (month d)
     ++ "-"%char :: zero_padded 2 (day d)).

Fixpoint parse_digits (cs : list ascii) (acc : nat) : option nat :=
  match cs with
  | [] => Some acc
  | c :: cs' =>
      match digit_value c with
      | Some k => parse_digits cs' (10 * acc + k)
      | None => None
      end
  end.

(** The calendar form YYYY-MM-DD of [date.fromisoformat]: exactly ten
    characters, then the constructor's range checks; [None] when the string
    is not of that form or names no date.  Every version of CPython reads
    this form, with this result; versions 3.7 to 3.10 read no other. *)
Definition fromisoformat (s : string) : option date :=
  match list_ascii_of_string s with
  | [y1; y2; y3; y4; s1; m1; m2; s2; d1; d2] =>
      match parse_digits [y1; y2; y3; y4] 0,
            parse_digits [m1; m2] 0,
            parse_digits [d1; d2] 0 with
      | Some y, Some m, Some d =>
          if Ascii.eqb s1 "-" && Ascii.eqb s2 "-" && check_date_args y m d
          then Some (mkDate y m d) else None
      | _, _, _ => None
      end
  | _ => None
  end.

(** ** Exact decimals ([decimal.Decimal]) *)

Inductive decimal :=
| Finite (negative : bool) (coefficient : N) (exponent : Z)
| Infinity (negative : bool)
| NaN (negative signalling : bool) (diagnostic : N).

(** ** Python values *)

Inductive value :=
| VNone
| VBool (b : bool)
| VInt (n : Z)
| VStr (s : string)
| VDate (d : date)
| VDecimal (q : decimal)
| VList (l : list value)
| VDict (m : gmap string value).

(** [bool(v)], as the [if] statement computes it. *)
Definition truthy (v : value) : bool :=
  match v with
  | VNone => false
  | VBool b => b
  | VInt n => negb (n =? 0)%Z
  | VStr s => negb (String.eqb s EmptyString)
  | VDate _ => true
  | VDecimal (Finite _ c _) => negb (c =? 0)%N
  | VDecimal _ => true
  | VList l => match l with [] => false | _ => true end
  | VDict m => negb (bool_decide (m = ∅))
  end.

(** ** Exceptions

    [SQLAlchemyError] stands for whatever the session or the engine raises
    (the subclasses of [sqlalchemy.exc.SQLAlchemyError]); the model layer
    lets it through. *)

Inductive exn :=
| KeyError (key : string)
| TypeError (msg : string)
| ValueError
| AttributeError (msg : string)
| InvalidOperation
| DataValidationError (msg : string)
| SQLAlchemyError.

(** A computation over a state [S]: the state it leaves, and either the
    exception it raised or its result.  The state is kept when an exception
    is raised, as Python keeps the attributes assigned so far. *)
Definition M (S A : Type) : Type := S → S * (exn + A).

Definition ret {S A} (x : A) : M S A := λ s, (s, inr x).
Definition raise {S A} (e : exn) : M S A := λ s, (s, inl e).
Definition bind {S A B} (m : M S A) (k : A → M S B) : M S B :=
  λ s, match m s with
       | (s', inr x) => k x s'
       | (s', inl e) => (s', inl e)
       end.
Definition get {S} : M S S := λ s, (s, inr s).
Definition gets {S A} (f : S → A) : M S A := λ s, (s, inr (f s)).
Definition modify {S} (f : S → S) : M S unit := λ s, (f s, inr tt).

(** [try: body / except ...: handler] *)
Definition try_except {S A} (body : M S A) (handler : exn → M S A) : M S A :=
  λ s, match body s with
       | (s', inl e) => handler e s'
       | r => r
       end.

#[global] Instance M_ret {S} : MRet (M S) := λ A, ret.
#[global] Instance M_bind {S} : MBind (M S) := λ A B k m, bind m k.

(** Running a method on an instance. *)
Definition run {S A} (m : M S A) (s : S) : S * (exn + A) := m s.

(** ** Operations of the values the model uses *)

(** [type(v).__name__], as CPython prints it in its messages. *)
Definition type_name (v : value) : string :=
  match v with
  | VNone => "NoneType"
  | VBool _ => "bool"
  | VInt _ => "int"
  | VStr _ => "str"
  | VDate _ => "datetime.date"
  | VDecimal _ => "decimal.Decimal"
  | VList _ => "list"
  | VDict _ => "dict"
  end.

(** The text of the [TypeError] that [v[key]] raises for a string [key]
    when [v] is not a mapping (CPython 3.9 wording). *)
Definition subscript_error (v : value) : string :=
  match v with
  | VList _ => "list indices must be integers or slices, not str"
  | VStr _ => "string indices must be integers"
  | _ => "'" +:+ type_name v +:+ "' object is not subscriptable"
  end.

(** [data[key]] *)
Definition getitem {S} (data : value) (key : string) : M S value :=
  match data with
  | VDict m =>
      match m !! key with
      | Some v => mret v
      | None => raise (KeyError key)
      end
  | _ => raise (TypeError (subscript_error data))
  end.

(** [data.get(key)] *)
Definition dict_get {S} (data : value) (key : string) : M S value :=
  match data with
  | VDict m => mret (default VNone (m !! key))
  | _ => raise (AttributeError
                  ("'" +:+ type_name data +:+ "' object has no attribute 'get'"))
  end.

(** What an interpreter's [date.fromisoformat] makes of a string that is
    not in the calendar form: a [ValueError] up to CPython 3.10
    ([no_other_form]); from 3.11 on the basic and the week forms of ISO 8601
    are read as well. *)
Definition no_other_form : string → option date := λ _, None.

(** [date.fromisoformat(v)]; [more] is the interpreter's reading of the
    strings outside the calendar form. *)
Definition date_fromisoformat {S} (more : string → option date) (v : value)
    : M S value :=
  match v with
  | VStr s =>
      match fromisoformat s with
      | Some d => mret (VDate d)
      | None =>
          match more s with
          | Some d => mret (VDate d)
          | None => raise ValueError
          end
      end
  | _ => raise (TypeError "fromisoformat: argument must be str")
  end.

(** [v.isoformat()] *)
Definition date_isoformat {S} (v : value) : M S value :=
  match v with
  | VDate d => mret (VStr (isoformat d))
  | _ => raise (AttributeError
                  ("'" +:+ type_name v +:+ "' object has no attribute 'isoformat'"))
  end.

(** ** The Account model *)

(** The state SQLAlchemy keeps for an instance: unknown to the session,
    added and waiting for its INSERT, stored under a primary key, marked for
    its DELETE, or left behind by a DELETE. *)
Inductive InstanceState :=
| Transient
| Pending
| Persistent (pk : Z)
| MarkedDeleted (pk : Z)
| Detached (pk : Z).

(** The columns of the table schema as attributes of an instance; an
    attribute that was never assigned reads [None]. *)
Record Account := mkAccount {
  id : value;
  name : value;
  email : value;
  address : value;
  phone_number : value;
  date_joined : value;
  sa_state : InstanceState
}.

(** [Account()] *)
Definition Account_new : Account :=
  mkAccount VNone VNone VNone VNone VNone VNone Transient.

Definition set_id (v : value) (a : Account) : Account :=
  mkAccount v (name a) (email a) (address a) (phone_number a) (date_joined a)
            (sa_state a).
Definition set_name (v : value) (a : Account) : Account :=
  mkAccount (id a) v (email a) (address a) (phone_number a) (date_joined a)
            (sa_state a).
Definition set_email (v : value) (a : Account) : Account :=
  mkAccount (id a) (name a) v (address a) (phone_number a) (date_joined a)
            (sa_state a).
Definition set_address (v : value) (a : Account) : Account :=
  mkAccount (id a) (name a) (email a) v (phone_number a) (date_joined a)
            (sa_state a).
Definition set_phone_number (v : value) (a : Account) : Account :=
  mkAccount (id a) (name a) (email a) (address a) v (date_joined a)
            (sa_state a).
Definition set_date_joined (v : value) (a : Account) : Account :=
  mkAccount (id a) (name a) (email a) (address a) (phone_number a) v
            (sa_state a).
Definition set_sa_state (st : InstanceState) (a : Account) : Account :=
  mkAccount (id a) (name a) (email a) (address a) (phone_number a)
            (date_joined a) st.

(** [Account.serialize] *)
Definition serialize : M Account value :=
  self ← get;
  iso ← date_isoformat (date_joined self);
  mret (VDict (list_to_map
    [ ("id", id self);
      ("name", name self);
      ("email", email self);
      ("address", address self);
      ("phone_number", phone_number self);
      ("date_joined", iso) ])).

(** [Account.deserialize]; [today] is what [date.today()] returns during
    the call, and [more] what the interpreter's [date.fromisoformat] reads
    beyond the calendar form. *)
Definition deserialize (more : string → option date) (today : date)
    (data : value) : M Account Account :=
  try_except
    (v ← getitem data "name"; modify (set_name v);;
     v ← getitem data "email"; modify (set_email v);;
     v ← getitem data "address"; modify (set_address v);;
     v ← dict_get data "phone_number"; modify (set_phone_number v);;
     date_joined ← dict_get data "date_joined";
     if truthy date_joined
     then d ← date_fromisoformat more date_joined; modify (set_date_joined d)
     else modify (set_date_joined (VDate today)))
    (λ error,
       match error with
       | KeyError k =>
           raise (DataValidationError ("Invalid Account: missing " +:+ k))
       | TypeError msg =>
           raise (DataValidationError
                    ("Invalid Account: body of request contained "
                     +:+ "bad or no data - " +:+ msg))
       | _ => raise error
       end);;
  get.

(** [Account.find_by_name] is defined with the store, below. *)

(** ** The store behind [db.session] *)

(** A stored row of the accounts table.  The text columns are nullable;
    [date_joined] is not. *)
Record Row := mkRow {
  row_name : option string;
  row_email : option string;
  row_address : option string;
  row_phone_number : option string;
  row_date_joined : date
}.

(** A call of [logger.info]: the format string and its arguments. *)
Definition LogRecord : Type := string * list value.

(** The process-wide state: the log, the accounts table and the sequence
    that generates its primary keys. *)
Record Env := mkEnv {
  log : list LogRecord;
  accounts : gmap Z Row;
  next_id : Z
}.

(** What the class body of [Account] fixes when the module is imported.
    [default=date.today()] is a call: the column default is the date the
    clock shows at that moment. *)
Record AccountClass := mkAccountClass { date_joined_default : date }.

Definition import_models (today : date) : AccountClass :=
  mkAccountClass today.

(** The state of an instance method: [self] and the process-wide state. *)
Record Ctx := mkCtx { ctx_self : Account; ctx_env : Env }.

Definition in_env {A} (m : M Env A) : M Ctx A :=
  λ c, let (e, r) := m (ctx_env c) in (mkCtx (ctx_self c) e, r).
Definition on_self (f : Account → Account) : M Ctx unit :=
  modify (λ c, mkCtx (f (ctx_self c)) (ctx_env c)).
Definition on_env (f : Env → Env) : M Ctx unit :=
  modify (λ c, mkCtx (ctx_self c) (f (ctx_env c))).

Definition logger_info (fmt : string) (args : list value) : M Env unit :=
  modify (λ e, mkEnv (log e ++ [(fmt, args)]) (accounts e) (next_id e)).

Definition set_accounts (t : gmap Z Row) (e : Env) : Env :=
  mkEnv (log e) t (next_id e).
Definition advance_sequence (e : Env) : Env :=
  mkEnv (log e) (accounts e) (next_id e + 1).

(** What the driver and the engine make of a Python value that is bound to
    a column of another type than its own: the text, or the date, that gets
    stored (an [int] bound to a text column is stored as its decimal text),
    or [None] when the statement fails.  A [str] bound to a text column, a
    [date] bound to the date column and [None] are stored as they are. *)
Record Driver := mkDriver {
  adapt_text : value → option string;
  adapt_date : value → option date
}.

(** The value stored in a text column for an attribute: [None] is NULL. *)
Definition text_column (drv : Driver) (v : value) : option (option string) :=
  match v with
  | VNone => Some None
  | VStr s => Some (Some s)
  | _ => Some <$> adapt_text drv v
  end.

(** The value stored in the [date_joined] column; [dflt] is the column
    default when the statement applies one. *)
Definition date_column (drv : Driver) (dflt : option date) (v : value)
    : option date :=
  match v with
  | VNone => dflt
  | VDate d => Some d
  | _ => adapt_date drv v
  end.

(** The row a statement writes for an instance; [None] when the statement
    fails on one of the values. *)
Definition to_row (drv : Driver) (dflt : option date) (a : Account)
    : option Row :=
  n ← text_column drv (name a);
  e ← text_column drv (email a);
  ad ← text_column drv (address a);
  ph ← text_column drv (phone_number a);
  d ← date_column drv dflt (date_joined a);
  Some (mkRow n e ad ph d).

(** An instance whose attributes have the Python types of their columns:
    [str] or [None] for the text columns, [date] or [None] for
    [date_joined]. *)
Definition is_text (v : value) : bool :=
  match v with VNone | VStr _ => true | _ => false end.
Definition is_date (v : value) : bool :=
  match v with VNone | VDate _ => true | _ => false end.
Definition well_typed (a : Account) : bool :=
  is_text (name a) && is_text (email a) && is_text (address a)
  && is_text (phone_number a) && is_date (date_joined a).

Definition text_value (o : option string) : value :=
  match o with Some s => VStr s | None => VNone end.

(** The instance the session holds for the row stored under [k]. *)
Definition instance_of (k : Z) (r : Row) : Account :=
  mkAccount (VInt k) (text_value (row_name r)) (text_value (row_email r))
            (text_value (row_address r)) (text_value (row_phone_number r))
            (VDate (row_date_joined r)) (Persistent k).

(** ** The persistent base model *)

Module PersistentBase.

Section Store.

(** The class as the import left it. *)
Variable cls : AccountClass.

(** The driver's and the engine's conversions. *)
Variable drv : Driver.

(** The engine's own checks on a row (column widths, encodings): a row it
    accepts is stored as given, a row it refuses fails the statement. *)
Variable accepts : Row → bool.

(** [db.session.add(self)] *)
Definition session_add : M Ctx unit :=
  self ← gets ctx_self;
  match sa_state self with
  | Transient => on_self (set_sa_state Pending)
  | Pending | Persistent _ => mret tt
  | MarkedDeleted k => on_self (set_sa_state (Persistent k))
  | Detached _ => raise SQLAlchemyError
  end.

(** [db.session.delete(self)] *)
Definition session_delete : M Ctx unit :=
  self ← gets ctx_self;
  match sa_state self with
  | Transient | Pending => raise SQLAlchemyError
  | Persistent k | Detached k => on_self (set_sa_state (MarkedDeleted k))
  | MarkedDeleted _ => mret tt
  end.

(** INSERT of a pending instance.  Without an id the key is the next value
    of the sequence.  A statement that fails changes nothing. *)
Definition flush_insert : M Ctx unit :=
  self ← gets ctx_self;
  match to_row drv (Some (date_joined_default cls)) self with
  | None => raise SQLAlchemyError
  | Some r =>
      match id self with
      | VNone =>
          k ← gets (λ c, next_id (ctx_env c));
          t ← gets (λ c, accounts (ctx_env c));
          if accepts r && bool_decide (t !! k = None)
          then on_env advance_sequence;;
               on_env (set_accounts (<[k:=r]> t));;
               on_self (λ _, instance_of k r)
          else raise SQLAlchemyError
      | VInt k =>
          t ← gets (λ c, accounts (ctx_env c));
          if accepts r && bool_decide (t !! k = None)
          then on_env (set_accounts (<[k:=r]> t));;
               on_self (λ _, instance_of k r)
          else raise SQLAlchemyError
      | _ => raise SQLAlchemyError
      end
  end.

(** UPDATE of the row stored under [k] with the attributes of [self]:
    refused without an integer id, without a date, when the row is gone,
    and when a changed id is taken. *)
Definition flush_update (k : Z) : M Ctx unit :=
  self ← gets ctx_self;
  match id self with
  | VInt j =>
      match to_row drv None self with
      | None => raise SQLAlchemyError
      | Some r =>
          t ← gets (λ c, accounts (ctx_env c));
          if bool_decide (t !! k = None) then raise SQLAlchemyError
          else if accepts r
                  && (bool_decide (j = k) || bool_decide (t !! j = None))
          then on_env (set_accounts (<[j:=r]> (delete k t)));;
               on_self (λ _, instance_of j r)
          else raise SQLAlchemyError
      end
  | _ => raise SQLAlchemyError
  end.

(** DELETE of the row stored under [k]; a missing row is not an error. *)
Definition flush_delete (k : Z) : M Ctx unit :=
  t ← gets (λ c, accounts (ctx_env c));
  on_env (set_accounts (delete k t));;
  on_self (set_sa_state (Detached k)).

(** What the session does to [self] when a commit has failed and is rolled
    back: a pending instance is transient again, with the attributes it
    has; a persistent one reads its stored row again. *)
Definition rollback : M Ctx unit :=
  self ← gets ctx_self;
  match sa_state self with
  | Pending => on_self (set_sa_state Transient)
  | Persistent k =>
      t ← gets (λ c, accounts (ctx_env c));
      match t !! k with
      | Some r => on_self (λ _, instance_of k r)
      | None => mret tt
      end
  | _ => mret tt
  end.

(** [db.session.commit()]: the statement that the state of [self] asks
    for, rolled back when it fails.  Instances are passed by value, so the
    unit of work is [self]. *)
Definition session_commit : M Ctx unit :=
  try_except
    (self ← gets ctx_self;
     match sa_state self with
     | Transient | Detached _ => mret tt
     | Pending => flush_insert
     | Persistent k => flush_update k
     | MarkedDeleted k => flush_delete k
     end)
    (λ error, rollback;; raise error).

(** [PersistentBase.create] *)
Definition create : M Ctx unit :=
  self ← gets ctx_self;
  in_env (logger_info "Creating %s" [name self]);;
  on_self (set_id VNone);;  (* id must be none to generate next primary key *)
  session_add;;
  session_commit.

(** [PersistentBase.update] *)
Definition update : M Ctx unit :=
  self ← gets ctx_self;
  in_env (logger_info "Updating %s" [name self]);;
  session_commit.

(** [PersistentBase.delete] *)
Definition delete : M Ctx unit :=
  self ← gets ctx_self;
  in_env (logger_info "Deleting %s" [name self]);;
  session_delete;;
  session_commit.

End Store.

(** [PersistentBase.all] *)
Definition all : M Env (list Account) :=
  logger_info "Processing all records" [];;
  t ← gets accounts;
  mret (uncurry instance_of <$> map_to_list t).

(** [PersistentBase.find]; [None] is Python's [None]. *)
Definition find (by_id : Z) : M Env (option Account) :=
  logger_info "Processing lookup for id %s ..." [VInt by_id];;
  t ← gets accounts;
  mret (instance_of by_id <$> t !! by_id).

End PersistentBase.

(** [Account.find_by_name] *)
Definition find_by_name (name : string) : M Env (list Account) :=
  logger_info "Processing name query for %s ..." [VStr name];;
  t ← gets accounts;
  mret (uncurry instance_of <$>
          filter (λ kr, row_name kr.2 = Some name) (map_to_list t)).

(** The state that [setUp] leaves: no rows; the sequence starts at 1. *)
Definition empty_env : Env := mkEnv [] ∅ 1.

(** ** Strings and decimals as [find_by_price] uses them *)

Fixpoint drop_while {A} (p : A → bool) (l : list A) : list A :=
  match l with
  | x :: l' => if p x then drop_while p l' else l
  | [] => []
  end.

(** [s.strip(chars)] *)
Definition py_strip (chars : list ascii) (s : string) : string :=
  let drop := drop_while (λ c, bool_decide (c ∈ chars)) in
  string_of_list_ascii (rev (drop (rev (drop (list_ascii_of_string s))))).

(** [c.isspace()] for the characters below U+0100. *)
Definition is_space (c : ascii) : bool :=
  let n := nat_of_ascii c in
  ((9 <=? n) && (n <=? 13)) || ((28 <=? n) && (n <=? 32))
  || (n =? 133) || (n =? 160).

Definition is_digit (c : ascii) : bool :=
  let n := nat_of_ascii c in (48 <=? n) && (n <=? 57).

(** ASCII lower case, for the case-insensitive parts of a numeral. *)
Definition lower (c : ascii) : ascii :=
  let n := nat_of_ascii c in
  if (65 <=? n) && (n <=? 90) then ascii_of_nat (n + 32) else c.

Fixpoint span_digits (cs : list ascii) : list ascii * list ascii :=
  match cs with
  | c :: cs' =>
      if is_digit c
      then let (ds, rest) := span_digits cs' in (c :: ds, rest)
      else ([], cs)
  | [] => ([], [])
  end.

Definition digits_to_N (cs : list ascii) : N :=
  foldl (λ acc c, 10 * acc + N.of_nat (nat_of_ascii c - 48))%N 0%N cs.

(** The exponent after [E]: an optional sign and at least one digit, up to
    the end of the string. *)
Definition parse_exponent (cs : list ascii) : option Z :=
  let '(neg, ds) :=
    match cs with
    | "-"%char :: r => (true, r)
    | "+"%char :: r => (false, r)
    | _ => (false, cs)
    end in
  match ds with
  | [] => None
  | _ =>
      if forallb is_digit ds
      then let e := Z.of_N (digits_to_N ds) in Some (if neg then - e else e)%Z
      else None
  end.

(** The limits of the C implementation of [decimal] on a 64-bit build:
    the largest precision and exponent, and the smallest exponent of a
    subnormal.  (The Python implementation has none, and a 32-bit build has
    smaller ones.) *)
Definition MAX_PREC : Z := 999999999999999999.
Definition MAX_EMAX : Z := 999999999999999999.
Definition MIN_ETINY : Z := -1999999999999999997.

(** The digits of a coefficient without its leading zeros. *)
Definition significant (ds : list ascii) : list ascii :=
  drop_while (λ c, Ascii.eqb c "0") ds.

(** Whether a coefficient of [n] significant digits ([0] for zero) with
    exponent [e] is a decimal exactly: otherwise the constructor would
    have to round or to clamp, and raises [InvalidOperation]. *)
Definition representable (n : nat) (e : Z) : bool :=
  ((Z.of_nat n <=? MAX_PREC) && (MIN_ETINY <=? e)
   && (e + Z.max (Z.of_nat n) 1 - 1 <=? MAX_EMAX))%Z.

(** A finite numeral: digits with an optional fraction and exponent, and at
    least one digit before the exponent. *)
Definition parse_finite (neg : bool) (cs : list ascii) : option decimal :=
  let (ip, r1) := span_digits cs in
  let (fp, r2) :=
    match r1 with
    | c :: r => if Ascii.eqb c "." then span_digits r else ([], r1)
    | [] => ([], r1)
    end in
  match ip ++ fp with
  | [] => None
  | ds =>
      let x :=
        match r2 with
        | [] => Some 0%Z
        | e :: r3 =>
            if Ascii.eqb (lower e) "e" then parse_exponent r3 else None
        end in
      match x with
      | Some x =>
          let exponent := (x - Z.of_nat (length fp))%Z in
          if representable (length (significant ds)) exponent
          then Some (Finite neg (digits_to_N ds) exponent)
          else None
      | None => None
      end
  end.

(** The diagnostic of a NaN: digits, no more than the precision allows. *)
Definition parse_diagnostic (ds : list ascii) : option N :=
  if forallb is_digit ds
     && (Z.of_nat (length (significant ds)) <=? MAX_PREC)%Z
  then Some (digits_to_N ds) else None.

(** [Inf], [Infinity], [NaN] and [sNaN] with an optional diagnostic. *)
Definition parse_special (neg : bool) (cs : list ascii) : option decimal :=
  match lower <$> cs with
  | ["i"; "n"; "f"]%char
  | ["i"; "n"; "f"; "i"; "n"; "i"; "t"; "y"]%char => Some (Infinity neg)
  | "n"%char :: "a"%char :: "n"%char :: ds =>
      NaN neg false <$> parse_diagnostic ds
  | "s"%char :: "n"%char :: "a"%char :: "n"%char :: ds =>
      NaN neg true <$> parse_diagnostic ds
  | _ => None
  end.

(** The optional sign in front of a numeral. *)
Definition split_sign (cs : list ascii) : bool * list ascii :=
  match cs with
  | c :: r =>
      if Ascii.eqb c "-" then (true, r)
      else if Ascii.eqb c "+" then (false, r)
      else (false, cs)
  | [] => (false, [])
  end.

(** The white space that [str.strip()] removes, below U+0100. *)
Definition white_space : list ascii :=
  filter (λ c, is_space c = true) (ascii_of_nat <$> seq 0 256).

(** [Decimal(s)] for a [str], as the C implementation on a 64-bit build
    constructs it: surrounding white space and all underscores are dropped,
    then the string has to be a numeral within the limits; the value is
    exact.  [None] stands for [decimal.InvalidOperation]. *)
Definition Decimal (s : string) : option decimal :=
  let cs := list_ascii_of_string (py_strip white_space s) in
  let cs := filter (λ c, c ≠ "_"%char) cs in
  let (neg, body) := split_sign cs in
  match parse_finite neg body with
  | Some d => Some d
  | None => parse_special neg body
  end.

(** ** The Product model: its queries *)

Module Product.

(** The argument of [find_by_price]: a [Decimal] or a [str]. *)
Inductive PriceArg :=
| PriceDecimal (d : decimal)
| PriceStr (s : string).

Definition price_value_of (p : PriceArg) : value :=
  match p with
  | PriceDecimal d => VDecimal d
  | PriceStr s => VStr s
  end.

Section Queries.

(** The class header of [Product], with its columns, is not part of the
    source: the stored row and its [price] column are parameters, and so
    is the engine's equality on that column. *)
Variable ProductRow : Type.
Variable price : ProductRow → decimal.
Variable price_eq : decimal → decimal → bool.

(** The log and the rows of the products table, in the engine's order. *)
Record Store := mkStore {
  log : list LogRecord;
  products : list ProductRow
}.

Definition logger_info (fmt : string) (args : list value) : M Store unit :=
  modify (λ e, mkStore (log e ++ [(fmt, args)]) (products e)).

(** [Product.find_by_price] *)
Definition find_by_price (price_arg : PriceArg) : M Store (list ProductRow) :=
  logger_info "Processing price query for %s ..." [price_value_of price_arg];;
  price_value ←
    match price_arg with
    | PriceStr s =>
        match Decimal (py_strip [" "; "034"]%char s) with
        | Some d => mret d
        | None => raise InvalidOperation
        end
    | PriceDecimal d => mret d
    end;
  rows ← gets products;
  mret (filter (λ r, price_eq (price r) price_value = true) rows).

(** The other columns that the queries compare, and the enumeration of
    categories with its member [UNKNOWN]; they are declared with the class
    header, outside the source. *)
Variable name : ProductRow → string.
Variable available : ProductRow → bool.
Variable Category : Type.
Context `{Category_eq : EqDecision Category}.
Variable UNKNOWN : Category.
Variable category_name : Category → string.
Variable category : ProductRow → Category.

(** [Product.all] *)
Definition all : M Store (list ProductRow) :=
  logger_info "Processing all Products" [];;
  gets products.

(** [Product.find_by_name] *)
Definition find_by_name (name_arg : string) : M Store (list ProductRow) :=
  logger_info "Processing name query for %s ..." [VStr name_arg];;
  rows ← gets products;
  mret (filter (λ r, name r = name_arg) rows).

(** [Product.find_by_availability]; [None] is the call without an
    argument, which takes the default [True]. *)
Definition find_by_availability (available_arg : option bool)
    : M Store (list ProductRow) :=
  let available_value := default true available_arg in
  logger_info "Processing available query for %s ..." [VBool available_value];;
  rows ← gets products;
  mret (filter (λ r, available r = available_value) rows).

(** [Product.find_by_category]; [None] is the call without an argument,
    which takes the default [Category.UNKNOWN]. *)
Definition find_by_category (category_arg : option Category)
    : M Store (list ProductRow) :=
  let category_value := default UNKNOWN category_arg in
  logger_info "Processing category query for %s ..."
    [VStr (category_name category_value)];;
  rows ← gets products;
  mret (filter (λ r, category r = category_value) rows).

End Queries.

End Product.

(** * Properties *)

(** ** Dates: [fromisoformat] reads back what [isoformat] prints *)

(** The shape YYYY-MM-DD: ten characters, digits around two hyphens. *)
Definition is_calendar_date_string (s : string) : bool :=
  match list_ascii_of_string s with
  | [y1; y2; y3; y4; s1; m1; m2; s2; d1; d2] =>
      forallb is_digit [y1; y2; y3; y4; m1; m2; d1; d2]
      && Ascii.eqb s1 "-" && Ascii.eqb s2 "-"
  | _ => false
  end.

#[local] Arguments Nat.modulo : simpl never.
#[local] Arguments Nat.div : simpl never.
#[local] Arguments Nat.pow : simpl never.
#[local] Arguments digit_char : simpl never.
#[local] Arguments digit_value : simpl never.
#[local] Arguments is_digit : simpl never.
#[local] Arguments check_date_args : simpl never.

Lemma digit_value_char k : k < 10 → digit_value (digit_char k) = Some k.
Proof.
  intros Hk. unfold digit_value, digit_char.
  rewrite nat_ascii_embedding by lia.
  replace (48 <=? 48 + k) with true by (symmetry; apply Nat.leb_le; lia).
  replace (48 + k <=? 57) with true by (symmetry; apply Nat.leb_le; lia).
  simpl. f_equal. lia.
Qed.

Lemma digit_value_is_digit c k : digit_value c = Some k → is_digit c = true.
Proof.
  unfold digit_value, is_digit.
  destruct ((48 <=? nat_of_ascii c) && (nat_of_ascii c <=? 57)); congruence.
Qed.

Lemma digit_value_bound c k : digit_value c = Some k → k < 10.
Proof.
  unfold digit_value.
  destruct ((48 <=? nat_of_ascii c) && (nat_of_ascii c <=? 57)) eqn:E;
    [|done].
  apply andb_true_iff in E as [_ E%Nat.leb_le]. intros [= <-]. lia.
Qed.

Lemma digit_value_inv c k : digit_value c = Some k → c = digit_char k.
Proof.
  unfold digit_value, digit_char.
  destruct ((48 <=? nat_of_ascii c) && (nat_of_ascii c <=? 57)) eqn:E;
    [|done].
  apply andb_true_iff in E as [E1%Nat.leb_le _]. intros [= <-].
  replace (48 + (nat_of_ascii c - 48)) with (nat_of_ascii c) by lia.
  symmetry. apply ascii_nat_embedding.
Qed.

Lemma parse_digits_app l1 l2 acc :
  parse_digits (l1 ++ l2) acc = parse_digits l1 acc ≫= parse_digits l2.
Proof.
  revert acc. induction l1 as [|c l1 IH]; intros acc; simpl; [done|].
  destruct (digit_value c); [apply IH | done].
Qed.

Lemma parse_digits_all_digits l acc n :
  parse_digits l acc = Some n → forallb is_digit l = true.
Proof.
  revert acc. induction l as [|c l IH]; intros acc; simpl; [done|].
  destruct (digit_value c) as [k|] eqn:Hc; [|done].
  intros H. rewrite (digit_value_is_digit _ _ Hc). simpl. eauto.
Qed.

Lemma parse_digits_zeros k l acc :
  acc = 0 → parse_digits (replicate k "0"%char ++ l) acc = parse_digits l 0.
Proof.
  intros ->. induction k as [|k IH]; simpl; [done|].
  exact IH.
Qed.

Lemma digits_le_in_range fuel n d : d ∈ digits_le fuel n → d < 10.
Proof.
  revert n. induction fuel as [|f IH]; intros n; simpl.
  - by intros ?%elem_of_nil.
  - destruct (n <? 10) eqn:Hn.
    + intros ->%list_elem_of_singleton. by apply Nat.ltb_lt.
    + intros [->|H]%elem_of_cons; [|by eapply IH].
      apply Nat.mod_upper_bound. lia.
Qed.

(** Reading the digits of [n], most significant first, gives [n] back. *)
Lemma parse_digits_of_nat fuel n acc :
  n < fuel →
  ∃ w, parse_digits (digit_char <$> rev (digits_le fuel n)) acc
       = Some (acc * 10 ^ w + n).
Proof.
  revert n acc. induction fuel as [|f IH]; intros n acc Hn; [lia|].
  cbn [digits_le]. destruct (n <? 10) eqn:H10.
  - apply Nat.ltb_lt in H10. exists 1.
    cbn [rev fmap list_fmap app parse_digits].
    rewrite digit_value_char by done. f_equal. rewrite Nat.pow_1_r. lia.
  - apply Nat.ltb_ge in H10.
    assert (Hq : n / 10 < f).
    { assert (n / 10 < n) by (apply Nat.div_lt; lia). lia. }
    destruct (IH (n / 10) acc Hq) as [w Hw].
    exists (S w). cbn [rev]. rewrite fmap_app, parse_digits_app, Hw.
    cbn [mbind option_bind fmap list_fmap parse_digits].
    rewrite digit_value_char by (apply Nat.mod_upper_bound; lia).
    f_equal. pose proof (Nat.div_mod_eq n 10). rewrite Nat.pow_succ_r'.
    generalize (10 ^ w). intros p. nia.
Qed.

Lemma digits_le_length fuel n w :
  1 ≤ w → n < 10 ^ w → length (digits_le fuel n) ≤ w.
Proof.
  revert n w. induction fuel as [|f IH]; intros n w Hw Hn; simpl; [lia|].
  destruct (n <? 10) eqn:H10; simpl; [lia|].
  apply Nat.ltb_ge in H10.
  destruct w as [|[|w]]; [lia| rewrite Nat.pow_1_r in Hn; lia |].
  apply le_n_S, IH; [lia|].
  rewrite Nat.pow_succ_r' in Hn.
  apply Nat.Div0.div_lt_upper_bound. lia.
Qed.

Lemma zero_padded_length w n :
  1 ≤ w → n < 10 ^ w → length (zero_padded w n) = w.
Proof.
  intros Hw Hn. unfold zero_padded.
  rewrite length_app, length_replicate, length_fmap, length_rev.
  pose proof (digits_le_length (S n) n w Hw Hn). lia.
Qed.

Lemma zero_padded_parse w n :
  parse_digits (zero_padded w n) 0 = Some n.
Proof.
  unfold zero_padded. rewrite parse_digits_zeros by done.
  destruct (parse_digits_of_nat (S n) n 0) as [k Hk]; [lia|].
  rewrite Hk. f_equal.
Qed.

Lemma check_date_args_bounds y m d :
  check_date_args y m d = true → y < 10 ^ 4 ∧ m < 10 ^ 2 ∧ d < 10 ^ 2.
Proof.
  unfold check_date_args. rewrite !andb_true_iff, !Nat.leb_le.
  intros [[[[[? Hy] ?] ?] ?] Hd].
  assert (days_in_month y m ≤ 31).
  { unfold days_in_month.
    do 12 (destruct m as [|m]; [destruct (is_leap y); lia|]).
    destruct (is_leap y); lia. }
  split.
  - eapply Nat.le_lt_trans; [exact Hy|]. apply Nat.ltb_lt. by vm_compute.
  - change (10 ^ 2) with 100. lia.
Qed.

Lemma list_length_2 {A} (l : list A) :
  length l = 2 → ∃ a b, l = [a; b].
Proof. destruct l as [|a [|b [|]]]; try done. eauto. Qed.

Lemma list_length_4 {A} (l : list A) :
  length l = 4 → ∃ a b c d, l = [a; b; c; d].
Proof. destruct l as [|a [|b [|c [|d [|]]]]]; try done. eauto. Qed.

Lemma fromisoformat_isoformat d :
  valid_date d → fromisoformat (isoformat d) = Some d.
Proof.
  intros Hv. destruct d as [y m dd]. unfold valid_date in Hv. simpl in Hv.
  destruct (check_date_args_bounds _ _ _ Hv) as (Hy & Hm & Hd).
  unfold fromisoformat, isoformat. rewrite list_ascii_of_string_of_list_ascii.
  simpl year; simpl month; simpl day.
  pose proof (zero_padded_parse 4 y) as Py.
  pose proof (zero_padded_parse 2 m) as Pm.
  pose proof (zero_padded_parse 2 dd) as Pd.
  destruct (list_length_4 _ (zero_padded_length 4 y ltac:(lia) Hy))
    as (y1 & y2 & y3 & y4 & Ey).
  destruct (list_length_2 _ (zero_padded_length 2 m ltac:(lia) Hm))
    as (m1 & m2 & Em).
  destruct (list_length_2 _ (zero_padded_length 2 dd ltac:(lia) Hd))
    as (e1 & e2 & Ed).
  rewrite Ey in *. rewrite Em in *. rewrite Ed in *.
  cbn [app]. rewrite Py, Pm, Pd, Hv. reflexivity.
Qed.

Lemma fromisoformat_shape s d :
  fromisoformat s = Some d → is_calendar_date_string s = true.
Proof.
  unfold fromisoformat, is_calendar_date_string.
  destruct (list_ascii_of_string s)
    as [|y1 [|y2 [|y3 [|y4 [|s1 [|m1 [|m2 [|s2 [|d1 [|d2 [|]]]]]]]]]]];
    try done.
  destruct (parse_digits [y1; y2; y3; y4] 0) as [y|] eqn:Hy; [|done].
  destruct (parse_digits [m1; m2] 0) as [m|] eqn:Hm; [|done].
  destruct (parse_digits [d1; d2] 0) as [dd|] eqn:Hd; [|done].
  apply parse_digits_all_digits in Hy, Hm, Hd.
  destruct (Ascii.eqb s1 "-"); [|done]. destruct (Ascii.eqb s2 "-"); [|done].
  intros _. simpl in *.
  rewrite !andb_true_iff in *. tauto.
Qed.

Lemma isoformat_shape d :
  valid_date d → is_calendar_date_string (isoformat d) = true.
Proof. intros H. eapply fromisoformat_shape, fromisoformat_isoformat, H. Qed.

(** ** Account: serialize and deserialize *)

Definition required_keys : list string := ["name"; "email"; "address"].

(** The first required key that a mapping lacks. *)
Definition first_missing (m : gmap string value) : option string :=
  snd <$> list_find (λ k, m !! k = None) required_keys.

(** The mapping that [serialize] builds from an instance and the text of
    its date. *)
Definition serialized (a : Account) (iso : string) : gmap string value :=
  list_to_map
    [ ("id", id a); ("name", name a); ("email", email a);
      ("address", address a); ("phone_number", phone_number a);
      ("date_joined", VStr iso) ].

Ltac run_method :=
  unfold run, deserialize, serialize, try_except, getitem, dict_get,
    date_fromisoformat, date_isoformat, get, gets, modify, raise,
    mbind, mret, M_bind, M_ret, bind, ret;
  cbv beta iota.

Lemma serialize_date a d :
  date_joined a = VDate d →
  run serialize a = (a, inr (VDict (serialized a (isoformat d)))).
Proof. intros H. run_method. rewrite H. reflexivity. Qed.

Lemma serialize_no_date a :
  (∀ d, date_joined a ≠ VDate d) →
  run serialize a =
    (a, inl (AttributeError ("'" +:+ type_name (date_joined a)
                             +:+ "' object has no attribute 'isoformat'"))).
Proof.
  intros H. run_method. destruct (date_joined a); try reflexivity.
  by destruct (H d).
Qed.

Lemma serialized_lookup a iso :
  let m := serialized a iso in
  m !! "id" = Some (id a) ∧ m !! "name" = Some (name a)
  ∧ m !! "email" = Some (email a) ∧ m !! "address" = Some (address a)
  ∧ m !! "phone_number" = Some (phone_number a)
  ∧ m !! "date_joined" = Some (VStr iso).
Proof.
  unfold serialized. cbn [list_to_map foldr].
  repeat split; by simplify_map_eq.
Qed.

Lemma serialized_dom a iso :
  dom (serialized a iso)
  = list_to_set ["id"; "name"; "email"; "address"; "phone_number";
                 "date_joined"].
Proof.
  unfold serialized. rewrite dom_list_to_map_L. reflexivity.
Qed.

(** What [deserialize] does with a mapping that has the required keys. *)
Lemma deserialize_dict more today m a n e ad :
  m !! "name" = Some n → m !! "email" = Some e → m !! "address" = Some ad →
  let filled :=
    set_phone_number (default VNone (m !! "phone_number"))
      (set_address ad (set_email e (set_name n a))) in
  let dj := default VNone (m !! "date_joined") in
  run (deserialize more today (VDict m)) a =
    if truthy dj then
      match dj with
      | VStr s =>
          match fromisoformat s with
          | Some d => let r := set_date_joined (VDate d) filled in (r, inr r)
          | None =>
              match more s with
              | Some d =>
                  let r := set_date_joined (VDate d) filled in (r, inr r)
              | None => (filled, inl ValueError)
              end
          end
      | _ => (filled,
              inl (DataValidationError
                     ("Invalid Account: body of request contained "
                      +:+ "bad or no data - "
                      +:+ "fromisoformat: argument must be str")))
      end
    else let r := set_date_joined (VDate today) filled in (r, inr r).
Proof.
  intros Hn He Ha. run_method. rewrite Hn, He, Ha. cbv beta iota.
  destruct (truthy (default VNone (m !! "date_joined"))) eqn:Ht;
    [|reflexivity].
  destruct (default VNone (m !! "date_joined")) as [| | |s| | | |];
    try reflexivity.
  destruct (fromisoformat s); [reflexivity|].
  destruct (more s); reflexivity.
Qed.

(** Sample data for the closed instances below. *)
Definition leap_day : date := mkDate 2024 2 29.
Definition new_year : date := mkDate 2025 1 1.
Definition ann : Account :=
  mkAccount VNone (VStr "Ann") (VStr "ann@example.com") (VStr "1 Main St")
            VNone (VDate leap_day) Transient.

(** C2: an Account whose date_joined holds a date serializes to a mapping
    that has the date_joined key, and deserializing that mapping into a
    fresh Account gives back the same name, email, address, phone_number and
    date_joined, whatever the clock shows.  The date is what makes the round
    trip exact: without the date_joined key the other fields still come
    back, and date_joined is the day of the call. *)
Theorem deserialize_serialize_roundtrip
    (more : string → option date) (x : Account) (d today : date) :
  date_joined x = VDate d → valid_date d →
  ∃ m y z,
    run serialize x = (x, inr (VDict m))
    ∧ is_Some (m !! "date_joined")
    ∧ run (deserialize more today (VDict m)) Account_new = (y, inr y)
    ∧ name y = name x ∧ email y = email x ∧ address y = address x
    ∧ phone_number y = phone_number x ∧ date_joined y = date_joined x
    ∧ run (deserialize more today (VDict (delete "date_joined" m))) Account_new
      = (z, inr z)
    ∧ name z = name x ∧ email z = email x ∧ address z = address x
    ∧ phone_number z = phone_number x ∧ date_joined z = VDate today.
Proof.
  intros Hd Hv.
  destruct (serialized_lookup x (isoformat d)) as (_ & Hn & He & Ha & Hp & Hj).
  eexists (serialized x (isoformat d)), _, _.
  split; [by apply serialize_date|]. split; [by rewrite Hj|].
  rewrite (deserialize_dict more today _ _ _ _ _ Hn He Ha). rewrite Hj, Hp.
  cbn [from_option Datatypes.id truthy]. 
  assert (Hne : String.eqb (isoformat d) EmptyString = false).
  { apply String.eqb_neq. intros E.
    pose proof (isoformat_shape d Hv) as Hs. rewrite E in Hs. done. }
  rewrite Hne. cbn [negb]. rewrite (fromisoformat_isoformat d Hv).
  cbv zeta. split; [reflexivity|].
  rewrite Hd. do 5 (split; [reflexivity|]).
  rewrite (deserialize_dict more today _ Account_new (name x) (email x)
             (address x))
    by (by rewrite lookup_delete_ne).
  rewrite lookup_delete_eq, lookup_delete_ne, Hp by done.
  cbn [from_option Datatypes.id truthy]. cbv zeta. repeat split.
Qed.

Lemma deserialize_serialize_roundtrip_witness :
  ∃ m y z,
    run serialize ann = (ann, inr (VDict m))
    ∧ is_Some (m !! "date_joined")
    ∧ run (deserialize no_other_form new_year
             (VDict m)) Account_new = (y, inr y)
    ∧ name y = name ann ∧ email y = email ann ∧ address y = address ann
    ∧ phone_number y = phone_number ann ∧ date_joined y = date_joined ann
    ∧ run (deserialize no_other_form new_year
             (VDict (delete "date_joined" m))) Account_new
      = (z, inr z)
    ∧ name z = name ann ∧ email z = email ann ∧ address z = address ann
    ∧ phone_number z = phone_number ann ∧ date_joined z = VDate new_year.
Proof.
  apply (deserialize_serialize_roundtrip no_other_form ann leap_day new_year);
    [reflexivity | vm_compute; reflexivity].
Defined.

(** C3: a mapping that lacks one of the required keys name, email, address
    makes deserialize raise DataValidationError, and the message names the
    first required key that is missing; for the empty mapping that is
    name. *)
Theorem deserialize_missing_required_key
    (more : string → option date) (today : date)
    (m : gmap string value) (a : Account) (k : string) :
  k ∈ required_keys → m !! k = None →
  ∃ k' a',
    first_missing m = Some k' ∧ k' ∈ required_keys ∧ m !! k' = None
    ∧ run (deserialize more today (VDict m)) a
      = (a', inl (DataValidationError ("Invalid Account: missing " +:+ k')))
    ∧ run (deserialize more today (VDict ∅)) a
      = (a, inl (DataValidationError "Invalid Account: missing name")).
Proof.
  intros Hk Hm.
  assert (Hempty : run (deserialize more today (VDict ∅)) a
            = (a, inl (DataValidationError "Invalid Account: missing name")))
    by reflexivity.
  unfold first_missing, required_keys in *.
  destruct (m !! "name") as [n|] eqn:Hn.
  2:{ exists "name", a. cbn [list_find]. rewrite decide_True by done.
      split; [done|]. split; [clear; set_solver|]. split; [done|].
      split; [|done]. run_method. by rewrite Hn. }
  destruct (m !! "email") as [e|] eqn:He.
  2:{ exists "email", (set_name n a). cbn [list_find].
      rewrite decide_False by (by rewrite Hn). rewrite decide_True by done.
      split; [done|]. split; [clear; set_solver|]. split; [done|].
      split; [|done]. run_method. by rewrite Hn, He. }
  destruct (m !! "address") as [ad|] eqn:Ha.
  2:{ exists "address", (set_email e (set_name n a)). cbn [list_find].
      rewrite decide_False by (by rewrite Hn).
      rewrite decide_False by (by rewrite He). rewrite decide_True by done.
      split; [done|]. split; [clear; set_solver|]. split; [done|].
      split; [|done]. run_method. by rewrite Hn, He, Ha. }
  exfalso. rewrite !elem_of_cons, elem_of_nil in Hk.
  destruct Hk as [->|[->|[->|[]]]]; congruence.
Qed.

Lemma deserialize_missing_required_key_witness :
  ∃ k' a',
    first_missing {[ "name" := VStr "Ann" ]} = Some k'
    ∧ k' ∈ required_keys
    ∧ ({[ "name" := VStr "Ann" ]} : gmap string value) !! k' = None
    ∧ run (deserialize no_other_form new_year
             (VDict {[ "name" := VStr "Ann" ]})) Account_new
      = (a', inl (DataValidationError ("Invalid Account: missing " +:+ k')))
    ∧ run (deserialize no_other_form new_year (VDict ∅)) Account_new
      = (Account_new,
         inl (DataValidationError "Invalid Account: missing name")).
Proof.
  apply (deserialize_missing_required_key no_other_form new_year
           {[ "name" := VStr "Ann" ]} Account_new "address").
  - unfold required_keys. set_solver.
  - reflexivity.
Defined.

Definition is_mapping (v : value) : bool :=
  match v with VDict _ => true | _ => false end.

Definition bad_data_prefix : string :=
  "Invalid Account: body of request contained bad or no data - ".

(** C4: for an input that is not a mapping, the access to the first required
    field raises a TypeError, and deserialize turns it into a
    DataValidationError whose message describes the bad input; the instance
    is left as it was.  The empty list is such an input. *)
Theorem deserialize_not_a_mapping
    (more : string → option date) (today : date) (data : value)
    (a : Account) :
  is_mapping data = false →
  run (deserialize more today data) a
  = (a, inl (DataValidationError (bad_data_prefix +:+ subscript_error data)))
  ∧ run (deserialize more today (VList [])) a
    = (a, inl (DataValidationError
                 (bad_data_prefix
                  +:+ "list indices must be integers or slices, not str"))).
Proof.
  intros H. split; [|reflexivity].
  destruct data; try discriminate H; reflexivity.
Qed.

Lemma deserialize_not_a_mapping_witness :
  run (deserialize no_other_form new_year (VStr "name")) Account_new
  = (Account_new,
     inl (DataValidationError
            (bad_data_prefix +:+ subscript_error (VStr "name"))))
  ∧ run (deserialize no_other_form new_year (VList [])) Account_new
    = (Account_new,
       inl (DataValidationError
              (bad_data_prefix
               +:+ "list indices must be integers or slices, not str"))).
Proof.
  apply (deserialize_not_a_mapping no_other_form new_year (VStr "name")
           Account_new).
  reflexivity.
Defined.

(** C5, as stated, fails on an Account that was never given a date: its
    date_joined reads None, and serialize raises AttributeError. *)
Lemma serialize_fresh_account_raises :
  run serialize Account_new
  = (Account_new,
     inl (AttributeError "'NoneType' object has no attribute 'isoformat'"))
  ∧ ¬ ∃ v, run serialize Account_new = (Account_new, inr v).
Proof.
  split; [reflexivity|]. intros [v Hv]. discriminate Hv.
Qed.

(** C5, amended: for every Account whose date_joined holds a date, transient
    or persisted, serialize succeeds and leaves the instance as it was; the
    mapping has exactly the keys id, name, email, address, phone_number and
    date_joined, bound to the attributes, with date_joined rendered as a
    YYYY-MM-DD string that reads back as the same date. *)
Theorem serialize_with_date (a : Account) (d : date) :
  date_joined a = VDate d → valid_date d →
  ∃ m iso,
    run serialize a = (a, inr (VDict m))
    ∧ dom m = list_to_set ["id"; "name"; "email"; "address";
                            "phone_number"; "date_joined"]
    ∧ m !! "id" = Some (id a) ∧ m !! "name" = Some (name a)
    ∧ m !! "email" = Some (email a) ∧ m !! "address" = Some (address a)
    ∧ m !! "phone_number" = Some (phone_number a)
    ∧ m !! "date_joined" = Some (VStr iso)
    ∧ is_calendar_date_string iso = true
    ∧ fromisoformat iso = Some d.
Proof.
  intros Hd Hv. exists (serialized a (isoformat d)), (isoformat d).
  split; [by apply serialize_date|].
  split; [apply serialized_dom|].
  destruct (serialized_lookup a (isoformat d)) as (? & ? & ? & ? & ? & ?).
  repeat (split; [assumption|]).
  split; [by apply isoformat_shape | by apply fromisoformat_isoformat].
Qed.

Lemma serialize_with_date_witness :
  ∃ m iso,
    run serialize ann = (ann, inr (VDict m))
    ∧ dom m = list_to_set ["id"; "name"; "email"; "address";
                            "phone_number"; "date_joined"]
    ∧ m !! "id" = Some (id ann) ∧ m !! "name" = Some (name ann)
    ∧ m !! "email" = Some (email ann) ∧ m !! "address" = Some (address ann)
    ∧ m !! "phone_number" = Some (phone_number ann)
    ∧ m !! "date_joined" = Some (VStr iso)
    ∧ is_calendar_date_string iso = true
    ∧ fromisoformat iso = Some leap_day.
Proof.
  apply (serialize_with_date ann leap_day);
    [reflexivity | vm_compute; reflexivity].
Defined.

(** A stored row always has a date, so the instances that the session hands
    out serialize. *)
Lemma serialize_persisted k r :
  valid_date (row_date_joined r) →
  ∃ m, run serialize (instance_of k r) = (instance_of k r, inr (VDict m)).
Proof.
  intros Hv. eexists. by apply (serialize_date _ (row_date_joined r)).
Qed.



(** ** The persistent base: create, find, delete *)

(** Every key in the table was drawn from the sequence. *)
Definition sequence_fresh (e : Env) : Prop :=
  ∀ k, is_Some (accounts e !! k) → (k < next_id e)%Z.

(** A record that the session stores under [k]. *)
Definition persisted (a : Account) (k : Z) (e : Env) : Prop :=
  sa_state a = Persistent k ∧ id a = VInt k ∧ is_Some (accounts e !! k).

Ltac run_store :=
  unfold run, PersistentBase.create, PersistentBase.update,
    PersistentBase.delete, PersistentBase.session_add,
    PersistentBase.session_delete, PersistentBase.session_commit,
    PersistentBase.flush_insert, PersistentBase.flush_update,
    PersistentBase.flush_delete, PersistentBase.rollback,
    PersistentBase.all, PersistentBase.find, try_except,
    in_env, on_self, on_env, logger_info, get, gets, modify, raise,
    mbind, mret, M_bind, M_ret, bind, ret;
  cbn [ctx_self ctx_env sa_state id name email address phone_number
       date_joined set_id set_sa_state log accounts next_id
       advance_sequence set_accounts].


Lemma sequence_fresh_next e :
  sequence_fresh e → accounts e !! next_id e = None.
Proof.
  intros Hf. destruct (accounts e !! next_id e) eqn:E; [|done].
  specialize (Hf (next_id e) (mk_is_Some _ _ E)). lia.
Qed.

Lemma text_value_column drv v o :
  is_text v = true → text_column drv v = Some o → text_value o = v.
Proof. destruct v; try discriminate; simpl; intros _ [= <-]; reflexivity. Qed.

Lemma to_row_fields drv dflt a r :
  to_row drv dflt a = Some r →
  text_column drv (name a) = Some (row_name r)
  ∧ text_column drv (email a) = Some (row_email r)
  ∧ text_column drv (address a) = Some (row_address r)
  ∧ text_column drv (phone_number a) = Some (row_phone_number r)
  ∧ date_column drv dflt (date_joined a) = Some (row_date_joined r).
Proof.
  unfold to_row. intros H.
  destruct (text_column drv (name a)) as [n|]; [|done].
  destruct (text_column drv (email a)) as [e|]; [|done].
  destruct (text_column drv (address a)) as [ad|]; [|done].
  destruct (text_column drv (phone_number a)) as [ph|]; [|done].
  destruct (date_column drv dflt (date_joined a)) as [d|]; [|done].
  simpl in H. by injection H as <-.
Qed.

(** What a date attribute reads after the row was written: the date it
    held, or the column default when it held none. *)
Definition date_or_default (dflt : date) (v : value) : value :=
  match v with
  | VNone => VDate dflt
  | _ => v
  end.

Lemma date_column_typed drv dflt v d :
  is_date v = true → date_column drv (Some dflt) v = Some d →
  VDate d = date_or_default dflt v.
Proof. destruct v; try discriminate; simpl; by intros _ [= <-]. Qed.

(** The row of a well-typed instance holds its attributes, and does not
    depend on the driver. *)
Lemma to_row_typed drv dflt a r :
  well_typed a = true → to_row drv dflt a = Some r →
  text_value (row_name r) = name a
  ∧ text_value (row_email r) = email a
  ∧ text_value (row_address r) = address a
  ∧ text_value (row_phone_number r) = phone_number a
  ∧ (∀ d, dflt = Some d →
          VDate (row_date_joined r) = date_or_default d (date_joined a))
  ∧ (dflt = None → VDate (row_date_joined r) = date_joined a).
Proof.
  unfold well_typed. rewrite !andb_true_iff.
  intros ((((Hn & He) & Ha) & Hp) & Hd) Hr.
  destruct (to_row_fields _ _ _ _ Hr) as (Rn & Re & Ra & Rp & Rd).
  repeat (split; [by eapply text_value_column|]).
  split.
  - intros d ->. by eapply date_column_typed.
  - intros ->. destruct (date_joined a); try discriminate; simpl in Rd;
      congruence.
Qed.

(** The log line of [create], and the instance that a failed create leaves:
    transient, without an id. *)
Definition creating (a : Account) (e : Env) : Env :=
  mkEnv (log e ++ [("Creating %s", [name a])]) (accounts e) (next_id e).
Definition unsaved (a : Account) : Account :=
  set_sa_state Transient (set_id VNone a).

(** [create] on an instance that the session does not hold yet. *)
Lemma create_transient cls drv accepts a e :
  sa_state a = Transient ∨ sa_state a = Pending →
  run (PersistentBase.create cls drv accepts) (mkCtx a e) =
    match to_row drv (Some (date_joined_default cls)) a with
    | None => (mkCtx (unsaved a) (creating a e), inl SQLAlchemyError)
    | Some r =>
        if accepts r && bool_decide (accounts e !! next_id e = None)
        then (mkCtx (instance_of (next_id e) r)
                    (mkEnv (log (creating a e))
                           (<[next_id e := r]> (accounts e))
                           (next_id e + 1)),
              inr tt)
        else (mkCtx (unsaved a) (creating a e), inl SQLAlchemyError)
    end.
Proof.
  intros Hs. destruct a as [i n em ad ph dj st]. simpl in Hs.
  destruct Hs as [-> | ->]; run_store; cbv beta iota;
    change (to_row drv ?d (mkAccount _ n em ad ph dj _))
      with (to_row drv d (mkAccount i n em ad ph dj Transient));
    (destruct (to_row _ _ _) as [r|]; [|reflexivity]);
    cbv beta iota; cbn [ctx_self ctx_env accounts next_id];
    destruct (accepts r && _); reflexivity.
Qed.

(** [create] on an instance that the session already holds fails, and stores
    nothing. *)
Lemma create_held cls drv accepts a e k :
  sa_state a = Persistent k ∨ sa_state a = MarkedDeleted k
  ∨ sa_state a = Detached k →
  ∃ c' ex,
    run (PersistentBase.create cls drv accepts) (mkCtx a e) = (c', inl ex)
    ∧ ctx_env c' = creating a e.
Proof.
  intros Hs. destruct a as [i n em ad ph dj st]. simpl in Hs.
  destruct Hs as [-> | [-> | ->]]; run_store; cbv beta iota;
    cbn [ctx_self ctx_env sa_state accounts];
    try destruct (accounts e !! k);
    eexists _, _; split; reflexivity.
Qed.

Lemma find_run k e :
  run (PersistentBase.find k) e
  = (mkEnv (log e ++ [("Processing lookup for id %s ...", [VInt k])])
           (accounts e) (next_id e),
     inr (instance_of k <$> accounts e !! k)).
Proof. reflexivity. Qed.

Lemma all_run e :
  run PersistentBase.all e
  = (mkEnv (log e ++ [("Processing all records", [])])
           (accounts e) (next_id e),
     inr (uncurry instance_of <$> map_to_list (accounts e))).
Proof. reflexivity. Qed.

(** A successful [create] is the INSERT under the next key of the
    sequence. *)
Lemma create_success cls drv accepts a e c' :
  run (PersistentBase.create cls drv accepts) (mkCtx a e) = (c', inr tt) →
  ∃ r, to_row drv (Some (date_joined_default cls)) a = Some r
       ∧ accepts r = true
       ∧ accounts e !! next_id e = None
       ∧ c' = mkCtx (instance_of (next_id e) r)
                    (mkEnv (log (creating a e))
                           (<[next_id e := r]> (accounts e))
                           (next_id e + 1)).
Proof.
  intros Hrun.
  destruct (sa_state a) as [| |k|k|k] eqn:Hs.
  1,2: rewrite create_transient in Hrun by auto;
       destruct (to_row _ _ a) as [r|]; [|discriminate Hrun];
       destruct (accepts r) eqn:Hacc; [|discriminate Hrun];
       cbn [andb] in Hrun; case_bool_decide as Hfree; [|discriminate Hrun];
       injection Hrun as <-; eauto.
  all: destruct (create_held cls drv accepts a e k) as (c2 & ex & Hc & _);
       [auto | rewrite Hc in Hrun; discriminate Hrun].
Qed.


Lemma create_succeeds cls drv accepts a e r :
  sequence_fresh e → sa_state a = Transient →
  to_row drv (Some (date_joined_default cls)) a = Some r → accepts r = true →
  run (PersistentBase.create cls drv accepts) (mkCtx a e)
  = (mkCtx (instance_of (next_id e) r)
           (mkEnv (log (creating a e)) (<[next_id e := r]> (accounts e))
                  (next_id e + 1)),
     inr tt).
Proof.
  intros Hf Hs Hr Hacc. rewrite create_transient by auto.
  rewrite Hr, Hacc, (sequence_fresh_next e Hf).
  rewrite bool_decide_eq_true_2 by done. reflexivity.
Qed.

Lemma sequence_fresh_insert e r l :
  sequence_fresh e →
  sequence_fresh (mkEnv l (<[next_id e := r]> (accounts e)) (next_id e + 1)).
Proof.
  intros Hf k. cbn [accounts next_id]. rewrite lookup_insert.
  case_decide as Hk; [lia|]. intros H. specialize (Hf k H). lia.
Qed.

Lemma sequence_fresh_delete e k l :
  sequence_fresh e →
  sequence_fresh (mkEnv l (base.delete k (accounts e)) (next_id e)).
Proof.
  intros Hf j. cbn [accounts next_id]. rewrite lookup_delete.
  case_decide; [by intros [? ?]|]. apply Hf.
Qed.

Definition always_accepts : Row → bool := λ _, true.


(** A driver for the examples: an [int] bound to a text column is stored as
    its decimal text; every other value of a foreign type is refused. *)
Definition sample_driver : Driver :=
  mkDriver
    (λ v, match v with
          | VInt n =>
              Some (string_of_list_ascii
                      ((if (n <? 0)%Z then ["-"%char] else [])
                       ++ zero_padded 1 (Z.to_nat (Z.abs n))))
          | _ => None
          end)
    (λ _, None).

Definition ann_row : Row :=
  mkRow (Some "Ann") (Some "ann@example.com") (Some "1 Main St") None
        leap_day.

Definition one_account : Env := mkEnv [] (<[1%Z := ann_row]> ∅) 2.






(** A value of another type is read back as the store converted it, by the
    record and by find alike: with a driver that stores an [int] as its
    decimal text, the name 5 reads as the string 5 after the create. *)
Lemma create_then_find_converted :
  ∃ c' e',
    run (PersistentBase.create (import_models new_year) sample_driver
           always_accepts)
        (mkCtx (set_name (VInt 5) ann) empty_env) = (c', inr tt)
    ∧ name (ctx_self c') = VStr "5"
    ∧ run (PersistentBase.find 1) (ctx_env c') = (e', inr (Some (ctx_self c'))).
Proof. eexists _, _. repeat split. Qed.



Lemma delete_persistent cls drv accepts a e k :
  sa_state a = Persistent k →
  run (PersistentBase.delete cls drv accepts) (mkCtx a e)
  = (mkCtx (set_sa_state (Detached k) a)
           (mkEnv (log e ++ [("Deleting %s", [name a])])
                  (base.delete k (accounts e)) (next_id e)),
     inr tt).
Proof.
  intros Hs. destruct a as [i n em ad ph dj st]. simpl in Hs. subst st.
  reflexivity.
Qed.

(** C9: delete on a persisted record succeeds and removes its row only;
    afterwards find with the former id returns None, as a result and not as
    an exception, and no record that all returns has that id. *)
Theorem delete_then_find
    (cls : AccountClass) (drv : Driver) (accepts : Row → bool)
    (a : Account) (e : Env)
    (k : Z) :
  persisted a k e →
  ∃ c' e1 e2 l,
    run (PersistentBase.delete cls drv accepts) (mkCtx a e) = (c', inr tt)
    ∧ accounts (ctx_env c') = base.delete k (accounts e)
    ∧ run (PersistentBase.find k) (ctx_env c') = (e1, inr None)
    ∧ run PersistentBase.all (ctx_env c') = (e2, inr l)
    ∧ (∀ p, p ∈ l → id p ≠ VInt k ∧ sa_state p ≠ Persistent k)
    ∧ (∀ j r, j ≠ k → accounts e !! j = Some r → instance_of j r ∈ l).
Proof.
  intros (Hs & Hid & Hrow).
  eexists _, _, _, _. rewrite (delete_persistent _ _ _ _ _ _ Hs).
  split; [reflexivity|]. cbn [ctx_env].
  rewrite find_run, all_run. cbn [accounts log next_id].
  rewrite lookup_delete_eq.
  split; [reflexivity|]. split; [reflexivity|].
  split; [reflexivity|]. split.
  - intros p [[j r] [-> Hjr]]%list_elem_of_fmap.
    apply elem_of_map_to_list in Hjr. cbn [uncurry instance_of id sa_state].
    apply lookup_delete_Some in Hjr as [Hne _].
    split; congruence.
  - intros j r Hne Hj. apply list_elem_of_fmap. exists (j, r).
    split; [reflexivity|]. apply elem_of_map_to_list.
    by rewrite lookup_delete_ne.
Qed.

Lemma delete_then_find_witness :
  ∃ c' e1 e2 l,
    run (PersistentBase.delete (import_models new_year)
           sample_driver always_accepts)
        (mkCtx (instance_of 1 ann_row) one_account) = (c', inr tt)
    ∧ accounts (ctx_env c') = base.delete 1%Z (accounts one_account)
    ∧ run (PersistentBase.find 1) (ctx_env c') = (e1, inr None)
    ∧ run PersistentBase.all (ctx_env c') = (e2, inr l)
    ∧ (∀ p, p ∈ l → id p ≠ VInt 1 ∧ sa_state p ≠ Persistent 1)
    ∧ (∀ j r, j ≠ 1%Z → accounts one_account !! j = Some r →
              instance_of j r ∈ l).
Proof.
  apply (delete_then_find (import_models new_year) sample_driver always_accepts
           (instance_of 1 ann_row) one_account 1).
  split; [reflexivity|]. split; [reflexivity|].
  exists ann_row. reflexivity.
Defined.

(** C6: the code at a failing input.  The module is imported on New Year's
    Eve; an Account without date_joined is created on a later day.  create
    reads no clock: the stored date is the one the import fixed, whatever
    the day of the call is, while deserialize on that day would have used
    the day itself. *)
Definition new_years_eve : date := mkDate 2024 12 31.
Definition bob : Account :=
  mkAccount VNone (VStr "Bob") (VStr "bob@example.com") (VStr "2 Side St")
            VNone VNone Transient.

Theorem create_default_date_fixed_at_import
    (more : string → option date) (drv : Driver) :
  let cls := import_models new_years_eve in
  ∃ c' r,
    run (PersistentBase.create cls drv always_accepts) (mkCtx bob empty_env)
    = (c', inr tt)
    ∧ accounts (ctx_env c') !! 1%Z = Some r
    ∧ row_date_joined r = new_years_eve
    ∧ date_joined (ctx_self c') = VDate new_years_eve
    ∧ new_years_eve ≠ new_year
    ∧ ∃ b, run (deserialize more new_year
                  (VDict (list_to_map [("name", VStr "Bob");
                                       ("email", VStr "bob@example.com");
                                       ("address", VStr "2 Side St")])))
               Account_new = (b, inr b)
           ∧ date_joined b = VDate new_year.
Proof.
  eexists _, _. split; [reflexivity|].
  split; [reflexivity|]. split; [reflexivity|]. split; [reflexivity|].
  split; [discriminate|]. eexists. split; reflexivity.
Qed.

(** The same for every import date and every store: a record created
    without date_joined is stored with the date of the import. *)
Lemma create_without_date cls drv accepts a e c' :
  date_joined a = VNone →
  run (PersistentBase.create cls drv accepts) (mkCtx a e) = (c', inr tt) →
  date_joined (ctx_self c') = VDate (date_joined_default cls).
Proof.
  intros Hd Hrun.
  destruct (create_success _ _ _ _ _ _ Hrun) as (r & Hr & _ & _ & ->).
  destruct (to_row_fields _ _ _ _ Hr) as (_ & _ & _ & _ & Hdc).
  rewrite Hd in Hdc. simpl in Hdc.
  cbn [ctx_self instance_of date_joined]. congruence.
Qed.

(** ** Product: find_by_price *)

(** The characters that [find_by_price] strips: the space and the double
    quote. *)
Definition strip_chars : list ascii := [" "; "034"]%char.

Lemma list_ascii_of_string_app s1 s2 :
  list_ascii_of_string (s1 +:+ s2)
  = list_ascii_of_string s1 ++ list_ascii_of_string s2.
Proof. induction s1 as [|c s1 IH]; simpl; [done | by rewrite IH]. Qed.

Lemma drop_while_all {A} (p : A → bool) l1 l2 :
  Forall (λ x, p x = true) l1 → drop_while p (l1 ++ l2) = drop_while p l2.
Proof. induction 1 as [|x l1 Hx _ IH]; simpl; [done | by rewrite Hx]. Qed.

Lemma drop_while_length {A} (p : A → bool) l :
  length (drop_while p l) ≤ length l.
Proof.
  induction l as [|x l IH]; simpl; [done|]. destruct (p x); simpl; lia.
Qed.

(** A list that stripping leaves alone does not begin with a character to
    strip, and neither does its reverse. *)
Lemma strip_fixed {A} (p : A → bool) l :
  rev (drop_while p (rev (drop_while p l))) = l →
  drop_while p l = l ∧ drop_while p (rev l) = rev l.
Proof.
  intros H.
  assert (Hl : drop_while p l = l).
  { destruct l as [|x l]; [done|]. simpl in *. destruct (p x); [|done].
    apply (f_equal length) in H. rewrite length_rev in H. simpl in H.
    pose proof (drop_while_length p (rev (drop_while p l))) as H1.
    pose proof (drop_while_length p l) as H2.
    rewrite length_rev in H1. lia. }
  split; [done|]. rewrite Hl in H.
  rewrite <- H at 2. by rewrite rev_involutive.
Qed.

Lemma drop_while_fixed_app {A} (p : A → bool) l1 l2 :
  l1 ≠ [] → drop_while p l1 = l1 → drop_while p (l1 ++ l2) = l1 ++ l2.
Proof.
  destruct l1 as [|x l1]; [done|]. simpl. intros _ H.
  destruct (p x) eqn:Hp; [|done].
  apply (f_equal length) in H. simpl in H.
  pose proof (drop_while_length p l1). lia.
Qed.

(** Stripping removes padding made of the stripped characters. *)
Lemma py_strip_padding chars pad1 core pad2 :
  Forall (λ c, c ∈ chars) (list_ascii_of_string pad1) →
  Forall (λ c, c ∈ chars) (list_ascii_of_string pad2) →
  py_strip chars core = core →
  py_strip chars (pad1 +:+ core +:+ pad2) = core.
Proof.
  intros H1 H2 Hc. unfold py_strip in *.
  set (p := λ c : ascii, bool_decide (c ∈ chars)) in *.
  assert (Hp : ∀ l, Forall (λ c, c ∈ chars) l → Forall (λ c, p c = true) l).
  { intros l Hl. eapply Forall_impl; [exact Hl|].
    intros c Hin. by apply bool_decide_eq_true_2. }
  apply (f_equal list_ascii_of_string) in Hc.
  rewrite list_ascii_of_string_of_list_ascii in Hc.
  destruct (strip_fixed p _ Hc) as [Hl Hr].
  rewrite <- (string_of_list_ascii_of_string core) at 2. f_equal.
  rewrite !list_ascii_of_string_app.
  rewrite drop_while_all by auto.
  destruct (list_ascii_of_string core) as [|c lc] eqn:E.
  - simpl. rewrite <- (app_nil_r (list_ascii_of_string pad2)).
    rewrite drop_while_all by auto. reflexivity.
  - rewrite drop_while_fixed_app by done.
    rewrite rev_app_distr, drop_while_all by (apply Hp; by apply Forall_rev).
    rewrite Hr. apply rev_involutive.
Qed.

(** The input [' "12.50" '] and the decimal 12.50. *)
Definition quote_pad_left : string := String " " (String "034" EmptyString).
Definition quote_pad_right : string := String "034" (String " " EmptyString).
Definition padded_12_50 : string :=
  quote_pad_left +:+ "12.50" +:+ quote_pad_right.
Definition dec_12_50 : decimal := Finite false 1250 (-2).

Lemma find_by_price_decimal {R} (price : R → decimal) price_eq st d :
  run (Product.find_by_price R price price_eq (Product.PriceDecimal d)) st
  = (Product.mkStore R
       (Product.log R st
        ++ [("Processing price query for %s ...", [VDecimal d])])
       (Product.products R st),
     inr (filter (λ r, price_eq (price r) d = true) (Product.products R st))).
Proof. reflexivity. Qed.

Lemma find_by_price_str {R} (price : R → decimal) price_eq st s :
  run (Product.find_by_price R price price_eq (Product.PriceStr s)) st
  = let st' := Product.mkStore R
                 (Product.log R st
                  ++ [("Processing price query for %s ...", [VStr s])])
                 (Product.products R st) in
    match Decimal (py_strip strip_chars s) with
    | Some d =>
        (st', inr (filter (λ r, price_eq (price r) d = true)
                     (Product.products R st)))
    | None => (st', inl InvalidOperation)
    end.
Proof.
  unfold run, Product.find_by_price, Product.logger_info, modify, gets, raise,
    mbind, mret, M_bind, M_ret, bind, ret. cbv beta iota.
  change [" "%char; "034"%char] with strip_chars.
  destruct (Decimal (py_strip strip_chars s)); reflexivity.
Qed.

(** *** Plain numerals *)

(** A numeral without exponent: an optional minus sign, the digits [ip],
    the point and the digits [fp]. *)
Definition numeral (neg : bool) (ip fp : list ascii) : string :=
  string_of_list_ascii
    ((if neg then ["-"%char] else []) ++ ip ++ "."%char :: fp).

Lemma is_digit_cases c :
  is_digit c = true →
  c ∈ ["0"; "1"; "2"; "3"; "4"; "5"; "6"; "7"; "8"; "9"]%char.
Proof.
  intros Hc.
  assert (Hv : digit_value c = Some (nat_of_ascii c - 48)).
  { unfold digit_value. unfold is_digit in Hc. by rewrite Hc. }
  pose proof (digit_value_bound _ _ Hv) as Hb.
  rewrite (digit_value_inv _ _ Hv).
  destruct (nat_of_ascii c - 48) as [|[|[|[|[|[|[|[|[|[|k]]]]]]]]]];
    [vm_compute; set_solver..|lia].
Qed.

(** What the parser needs to know of a character of a plain numeral. *)
Definition numeral_char (c : ascii) : Prop :=
  is_space c = false ∧ c ≠ "_"%char ∧ c ∉ strip_chars.

Lemma digit_numeral_char c : is_digit c = true → numeral_char c.
Proof.
  intros Hc%is_digit_cases. unfold numeral_char, strip_chars.
  rewrite !elem_of_cons, elem_of_nil in Hc.
  rewrite !not_elem_of_cons.
  destruct Hc as [->|[->|[->|[->|[->|[->|[->|[->|[->|[->|[]]]]]]]]]]];
    repeat split; try discriminate; apply not_elem_of_nil.
Qed.

Lemma digit_not_sign_or_point c :
  is_digit c = true →
  Ascii.eqb c "-" = false ∧ Ascii.eqb c "+" = false
  ∧ Ascii.eqb c "." = false.
Proof.
  intros Hc%is_digit_cases. rewrite !elem_of_cons, elem_of_nil in Hc.
  destruct Hc as [->|[->|[->|[->|[->|[->|[->|[->|[->|[->|[]]]]]]]]]]];
    repeat split.
Qed.

Lemma drop_while_none {A} (p : A → bool) l :
  Forall (λ x, p x = false) l → drop_while p l = l.
Proof. destruct 1 as [|x l Hx _]; simpl; [done | by rewrite Hx]. Qed.

(** Stripping leaves a string alone that has none of the characters. *)
Lemma py_strip_untouched chars l :
  Forall (λ c, c ∉ chars) l →
  py_strip chars (string_of_list_ascii l) = string_of_list_ascii l.
Proof.
  intros Hl. unfold py_strip. rewrite list_ascii_of_string_of_list_ascii.
  assert (Hp : ∀ l', Forall (λ c, c ∉ chars) l' →
            Forall (λ c, bool_decide (c ∈ chars) = false) l').
  { intros l' H. eapply Forall_impl; [exact H|].
    intros c Hc. by apply bool_decide_eq_false_2. }
  rewrite (drop_while_none _ l) by auto.
  rewrite (drop_while_none _ (rev l)) by (apply Hp; by apply Forall_rev).
  by rewrite rev_involutive.
Qed.

Lemma filter_all {A} (P : A → Prop) `{!∀ x, Decision (P x)} (l : list A) :
  Forall P l → filter P l = l.
Proof.
  induction 1 as [|x l Hx _ IH]; [done|].
  by rewrite filter_cons_True, IH.
Qed.

Lemma span_digits_all ds :
  Forall (λ c, is_digit c = true) ds → span_digits ds = (ds, []).
Proof.
  induction 1 as [|c ds Hc _ IH]; [done|].
  cbn [span_digits]. by rewrite Hc, IH.
Qed.

Lemma span_digits_until ds c r :
  Forall (λ c, is_digit c = true) ds → is_digit c = false →
  span_digits (ds ++ c :: r) = (ds, c :: r).
Proof.
  intros Hds Hc. induction Hds as [|x ds Hx _ IH].
  - cbn [app span_digits]. by rewrite Hc.
  - cbn [app span_digits]. by rewrite Hx, IH.
Qed.

(** [Decimal] reads a plain numeral exactly: the coefficient is the number
    that the digits spell, and the exponent counts the digits after the
    point. *)
Lemma Decimal_numeral neg ip fp :
  Forall (λ c, is_digit c = true) ip → Forall (λ c, is_digit c = true) fp →
  ip ++ fp ≠ [] → (Z.of_nat (length (ip ++ fp)) ≤ MAX_PREC)%Z →
  Decimal (numeral neg ip fp)
  = Some (Finite neg (digits_to_N (ip ++ fp)) (- Z.of_nat (length fp))).
Proof.
  intros Hip Hfp Hne Hlen. unfold Decimal, numeral.
  assert (Hall : Forall numeral_char
            ((if neg then ["-"%char] else []) ++ ip ++ "."%char :: fp)).
  { assert (Hd : ∀ l, Forall (λ c, is_digit c = true) l →
                      Forall numeral_char l).
    { intros l H. eapply Forall_impl; [exact H|]. apply digit_numeral_char. }
    assert (Hc : ∀ c, c = "-"%char ∨ c = "."%char → numeral_char c).
    { intros c [-> | ->]; unfold numeral_char, strip_chars;
        rewrite !not_elem_of_cons; repeat split; try discriminate;
        apply not_elem_of_nil. }
    apply Forall_app. split.
    - destruct neg; [|constructor].
      constructor; [apply Hc; by left | constructor].
    - apply Forall_app. split; [by apply Hd|].
      constructor; [apply Hc; by right | by apply Hd]. }
  rewrite py_strip_untouched.
  2:{ eapply Forall_impl; [exact Hall|]. intros c (Hs & _ & _).
      unfold white_space. rewrite list_elem_of_filter. intros [H _].
      congruence. }
  rewrite list_ascii_of_string_of_list_ascii.
  rewrite filter_all
    by (eapply Forall_impl; [exact Hall|]; by intros c (_ & ? & _)).
  assert (Hsign : split_sign
            ((if neg then ["-"%char] else []) ++ ip ++ "."%char :: fp)
          = (neg, ip ++ "."%char :: fp)).
  { destruct neg; [reflexivity|]. cbn [app].
    destruct Hip as [|c ip Hc _]; [reflexivity|].
    cbn [app split_sign].
    destruct (digit_not_sign_or_point c Hc) as (-> & -> & _). reflexivity. }
  rewrite Hsign. unfold parse_finite.
  rewrite (span_digits_until ip "." fp Hip eq_refl).
  change (Ascii.eqb "." ".") with true. cbv iota.
  rewrite (span_digits_all fp Hfp).
  destruct (ip ++ fp) as [|c ds] eqn:E; [done|].
  cbv zeta iota.
  replace (0 - Z.of_nat (length fp))%Z with (- Z.of_nat (length fp))%Z
    by lia.
  assert (Hrep : representable (length (significant (c :: ds)))
                   (- Z.of_nat (length fp)) = true).
  { pose proof (drop_while_length (λ c, Ascii.eqb c "0") (c :: ds)) as Hs.
    fold (significant (c :: ds)) in Hs.
    assert (length fp ≤ length (c :: ds)).
    { rewrite <- E, length_app. lia. }
    unfold representable, MAX_PREC, MAX_EMAX, MIN_ETINY in *.
    rewrite !andb_true_iff, !Z.leb_le. lia. }
  by rewrite Hrep.
Qed.

Lemma numeral_untouched neg ip fp :
  Forall (λ c, is_digit c = true) ip → Forall (λ c, is_digit c = true) fp →
  py_strip strip_chars (numeral neg ip fp) = numeral neg ip fp.
Proof.
  intros Hip Hfp. apply py_strip_untouched.
  assert (Hd : ∀ l, Forall (λ c, is_digit c = true) l →
                    Forall (λ c, c ∉ strip_chars) l).
  { intros l H. eapply Forall_impl; [exact H|].
    intros c Hc. by destruct (digit_numeral_char c Hc) as (_ & _ & ?). }
  assert (Hc : ∀ c, c = "-"%char ∨ c = "."%char → c ∉ strip_chars).
  { intros c [-> | ->]; unfold strip_chars; rewrite !not_elem_of_cons;
      repeat split; try discriminate; apply not_elem_of_nil. }
  apply Forall_app. split.
  - destruct neg; [|constructor].
    constructor; [apply Hc; by left | constructor].
  - apply Forall_app. split; [by apply Hd|].
    constructor; [apply Hc; by right | by apply Hd].
Qed.

(** C7, amended: find_by_price takes a decimal or a string.  A string is
    stripped of the spaces and double quotes around it, the two characters
    that the call of [strip] names, and parsed as an exact decimal before
    the match.  So a
    plain numeral padded with such characters selects the rows that the
    decimal it spells selects, digit for digit; every padded string that
    [Decimal] reads selects the rows of its value; the table is left as it
    was; and the padded string [' "12.50" '] and the decimal 12.50 select
    the same rows. *)
Theorem find_by_price_normalizes
    {R : Type} (price : R → decimal) (price_eq : decimal → decimal → bool)
    (st : Product.Store R) (pad1 pad2 : string) (neg : bool)
    (ip fp : list ascii) :
  Forall (λ c, c ∈ strip_chars) (list_ascii_of_string pad1) →
  Forall (λ c, c ∈ strip_chars) (list_ascii_of_string pad2) →
  Forall (λ c, is_digit c = true) ip → Forall (λ c, is_digit c = true) fp →
  ip ++ fp ≠ [] → (Z.of_nat (length (ip ++ fp)) ≤ MAX_PREC)%Z →
  let find := Product.find_by_price R price price_eq in
  let d := Finite neg (digits_to_N (ip ++ fp)) (- Z.of_nat (length fp)) in
  let rows := filter (λ r, price_eq (price r) d = true)
                (Product.products R st) in
  (∃ st1, run (find (Product.PriceStr (pad1 +:+ numeral neg ip fp +:+ pad2)))
              st = (st1, inr rows)
          ∧ Product.products R st1 = Product.products R st)
  ∧ (∃ st2, run (find (Product.PriceDecimal d)) st = (st2, inr rows)
            ∧ Product.products R st2 = Product.products R st)
  ∧ (∀ core d',
       py_strip strip_chars core = core → Decimal core = Some d' →
       (run (find (Product.PriceStr (pad1 +:+ core +:+ pad2))) st).2
       = (run (find (Product.PriceDecimal d')) st).2)
  ∧ (∃ st3 st4 l,
       run (find (Product.PriceStr padded_12_50)) st = (st3, inr l)
       ∧ run (find (Product.PriceDecimal dec_12_50)) st = (st4, inr l)
       ∧ l = filter (λ r, price_eq (price r) dec_12_50 = true)
               (Product.products R st)).
Proof.
  intros H1 H2 Hip Hfp Hne Hlen find d rows. subst find d rows.
  split; [|split; [|split]].
  - eexists. rewrite find_by_price_str.
    rewrite (py_strip_padding _ _ _ _ H1 H2 (numeral_untouched _ _ _ Hip Hfp)).
    rewrite (Decimal_numeral neg ip fp Hip Hfp Hne Hlen). cbv zeta.
    split; reflexivity.
  - eexists. rewrite find_by_price_decimal. split; reflexivity.
  - intros core d' Hc Hd.
    rewrite find_by_price_str, find_by_price_decimal.
    by rewrite (py_strip_padding _ _ _ _ H1 H2 Hc), Hd.
  - eexists _, _, _. rewrite find_by_price_str, find_by_price_decimal.
    replace (Decimal (py_strip strip_chars padded_12_50))
      with (Some dec_12_50) by (by vm_compute).
    cbv zeta. repeat split.
Qed.

(** Equality of finite decimals by value, for the example below. *)
Definition numeric_eqb (x y : decimal) : bool :=
  match x, y with
  | Finite s1 c1 e1, Finite s2 c2 e2 =>
      let m := Z.min e1 e2 in
      let v1 := (Z.of_N c1 * 10 ^ (e1 - m))%Z in
      let v2 := (Z.of_N c2 * 10 ^ (e2 - m))%Z in
      ((if s1 then - v1 else v1) =? (if s2 then - v2 else v2))%Z
  | _, _ => false
  end.

(** Three prices: 12.50, 12.5 and 12.51. *)
Definition price_list : Product.Store decimal :=
  Product.mkStore decimal []
    [Finite false 1250 (-2); Finite false 125 (-1); Finite false 1251 (-2)].

Lemma find_by_price_normalizes_witness :
  ∃ st1 st2,
    run (Product.find_by_price decimal (λ d, d) numeric_eqb
           (Product.PriceStr padded_12_50)) price_list
    = (st1, inr [Finite false 1250 (-2); Finite false 125 (-1)])
    ∧ run (Product.find_by_price decimal (λ d, d) numeric_eqb
             (Product.PriceDecimal dec_12_50)) price_list
      = (st2, inr [Finite false 1250 (-2); Finite false 125 (-1)]).
Proof.
  destruct (find_by_price_normalizes (λ d : decimal, d) numeric_eqb price_list
              quote_pad_left quote_pad_right false
              ["1"; "2"]%char ["5"; "0"]%char)
    as ((st1 & Hs & _) & (st2 & Hd & _) & _).
  - repeat constructor; unfold strip_chars; set_solver.
  - repeat constructor; unfold strip_chars; set_solver.
  - repeat constructor.
  - repeat constructor.
  - discriminate.
  - vm_compute. discriminate.
  - exists st1, st2. split; [exact Hs | exact Hd].
Defined.

Definition single_quote : ascii := "'"%char.

(** The strings [<TAB>"12.50"<TAB>] and ['12.50']. *)
Definition tab_quoted_12_50 : string :=
  String "009" (String "034"
    ("12.50" +:+ String "034" (String "009" EmptyString))).
Definition single_quoted_12_50 : string :=
  String single_quote ("12.50" +:+ String single_quote EmptyString).

(** C7, as stated, fails for white space other than the space and for the
    single quote: a tab outside the double quotes keeps them from being
    stripped, a single quote is never stripped, and in both cases the price
    is no numeral and find_by_price raises InvalidOperation, while the
    decimal 12.50 selects two rows. *)
Lemma find_by_price_other_padding_raises :
  (run (Product.find_by_price decimal (λ d, d) numeric_eqb
          (Product.PriceStr tab_quoted_12_50)) price_list).2
  = inl InvalidOperation
  ∧ (run (Product.find_by_price decimal (λ d, d) numeric_eqb
            (Product.PriceStr single_quoted_12_50)) price_list).2
    = inl InvalidOperation
  ∧ (run (Product.find_by_price decimal (λ d, d) numeric_eqb
            (Product.PriceDecimal dec_12_50)) price_list).2
    = inr [Finite false 1250 (-2); Finite false 125 (-1)].
Proof. repeat split. Qed.



(** * Further properties *)

(** ** Dates: [isoformat] prints back what [fromisoformat] read *)

Lemma parse_digits_shift l acc :
  parse_digits l acc = (λ v, acc * 10 ^ length l + v) <$> parse_digits l 0.
Proof.
  revert acc. induction l as [|c l IH]; intros acc.
  - cbn [parse_digits length fmap option_fmap option_map].
    f_equal. rewrite Nat.pow_0_r. lia.
  - cbn [parse_digits length]. destruct (digit_value c) as [k|]; [|done].
    rewrite (IH (10 * acc + k)), (IH (10 * 0 + k)).
    destruct (parse_digits l 0) as [v|]; [|done].
    cbn [fmap option_fmap option_map]. f_equal.
    rewrite Nat.pow_succ_r'. generalize (10 ^ length l). intros p. nia.
Qed.

Lemma parse_digits_bound l v :
  parse_digits l 0 = Some v → v < 10 ^ length l.
Proof.
  revert v. induction l as [|c l IH]; intros v.
  - cbn [parse_digits length]. intros [= <-]. rewrite Nat.pow_0_r. lia.
  - cbn [parse_digits length]. destruct (digit_value c) as [k|] eqn:Hk; [|done].
    rewrite parse_digits_shift.
    destruct (parse_digits l 0) as [v'|]; [|done].
    cbn [fmap option_fmap option_map]. intros [= <-].
    specialize (IH v' eq_refl). apply digit_value_bound in Hk.
    rewrite Nat.pow_succ_r'. revert IH. generalize (10 ^ length l).
    intros p Hp. nia.
Qed.

(** Two digit strings of one length that read as the same number are the
    same string. *)
Lemma parse_digits_inj l1 l2 n :
  length l1 = length l2 →
  parse_digits l1 0 = Some n → parse_digits l2 0 = Some n → l1 = l2.
Proof.
  revert l2 n. induction l1 as [|c1 l1 IH]; intros [|c2 l2] n Hlen;
    try discriminate Hlen; [done|].
  cbn [parse_digits]. injection Hlen as Hlen.
  destruct (digit_value c1) as [k1|] eqn:H1; [|done].
  destruct (digit_value c2) as [k2|] eqn:H2; [|done].
  rewrite (parse_digits_shift l1), (parse_digits_shift l2).
  destruct (parse_digits l1 0) as [v1|] eqn:P1; [|done].
  destruct (parse_digits l2 0) as [v2|] eqn:P2; [|done].
  cbn [fmap option_fmap option_map]. intros [= <-] [= E].
  pose proof (parse_digits_bound _ _ P1) as B1.
  pose proof (parse_digits_bound _ _ P2) as B2.
  rewrite <- Hlen in *. revert E B1 B2. generalize (10 ^ length l1).
  intros p E B1 B2.
  assert (k2 = k1) by nia. subst k2. assert (v2 = v1) by nia. subst v2.
  f_equal.
  - apply digit_value_inv in H1, H2. congruence.
  - by apply (IH l2 v1).
Qed.

Lemma zero_padded_unique w l n :
  1 ≤ w → length l = w → parse_digits l 0 = Some n → zero_padded w n = l.
Proof.
  intros Hw Hl Hp.
  assert (Hn : n < 10 ^ w) by (rewrite <- Hl; by apply parse_digits_bound).
  apply (parse_digits_inj _ _ n).
  - by rewrite zero_padded_length.
  - apply zero_padded_parse.
  - done.
Qed.

Lemma isoformat_fromisoformat s d :
  fromisoformat s = Some d → isoformat d = s ∧ valid_date d.
Proof.
  unfold fromisoformat, isoformat, valid_date.
  destruct (list_ascii_of_string s)
    as [|y1 [|y2 [|y3 [|y4 [|s1 [|m1 [|m2 [|s2 [|d1 [|d2 [|]]]]]]]]]]] eqn:Hs;
    try done.
  destruct (parse_digits [y1; y2; y3; y4] 0) as [y|] eqn:Hy; [|done].
  destruct (parse_digits [m1; m2] 0) as [m|] eqn:Hm; [|done].
  destruct (parse_digits [d1; d2] 0) as [dd|] eqn:Hd; [|done].
  destruct (Ascii.eqb s1 "-") eqn:E1; [|done].
  destruct (Ascii.eqb s2 "-") eqn:E2; [|done].
  destruct (check_date_args y m dd) eqn:Hc; [|done].
  cbn [andb]. intros [= <-]. cbn [year month day]. split; [|done].
  apply Ascii.eqb_eq in E1, E2. subst s1 s2.
  rewrite (zero_padded_unique 4 [y1; y2; y3; y4] y ltac:(lia) eq_refl Hy).
  rewrite (zero_padded_unique 2 [m1; m2] m ltac:(lia) eq_refl Hm).
  rewrite (zero_padded_unique 2 [d1; d2] dd ltac:(lia) eq_refl Hd).
  cbn [app]. rewrite <- Hs. apply string_of_list_ascii_of_string.
Qed.

(** ** Account.deserialize: the date, the other keys, the instance *)

(** The instance after the four fields before the date were assigned. *)
Definition with_fields (m : gmap string value) (n e ad : value) (a : Account)
    : Account :=
  set_phone_number (default VNone (m !! "phone_number"))
    (set_address ad (set_email e (set_name n a))).

Definition sample_fields : gmap string value :=
  list_to_map [("name", VStr "Ann"); ("email", VStr "ann@example.com");
               ("address", VStr "1 Main St")].

(** X1: a date_joined string that the interpreter's date.fromisoformat
    does not read (it is not a calendar date YYYY-MM-DD, nor in a further
    form that this interpreter reads) makes deserialize raise ValueError,
    which no handler turns into DataValidationError; name, email, address
    and phone_number are assigned by then and date_joined is not. *)
Theorem deserialize_invalid_date_raises_value_error
    (more : string → option date) (today : date)
    (m : gmap string value) (a : Account) (n e ad : value)
    (s : string) :
  m !! "name" = Some n → m !! "email" = Some e → m !! "address" = Some ad →
  m !! "date_joined" = Some (VStr s) → s ≠ EmptyString →
  fromisoformat s = None → more s = None →
  run (deserialize more today (VDict m)) a
  = (with_fields m n e ad a, inl ValueError)
  ∧ date_joined (with_fields m n e ad a) = date_joined a.
Proof.
  intros Hn He Ha Hd Hs Hf Hm. split; [|reflexivity].
  rewrite (deserialize_dict more today m a n e ad Hn He Ha), Hd.
  cbn [from_option Datatypes.id truthy].
  apply String.eqb_neq in Hs. rewrite Hs, Hf, Hm. reflexivity.
Qed.

Lemma deserialize_invalid_date_raises_value_error_witness :
  ∃ a', run (deserialize no_other_form new_year
               (VDict (<["date_joined" := VStr "2023-02-29"]> sample_fields)))
            Account_new = (a', inl ValueError)
        ∧ name a' = VStr "Ann" ∧ date_joined a' = VNone.
Proof.
  eexists. split.
  - apply (deserialize_invalid_date_raises_value_error no_other_form new_year
             (<["date_joined" := VStr "2023-02-29"]> sample_fields)
             Account_new (VStr "Ann") (VStr "ann@example.com")
             (VStr "1 Main St") "2023-02-29");
      try reflexivity.
    discriminate.
  - split; reflexivity.
Defined.

(** X2: a date_joined value that is true as a condition and is not a string
    makes deserialize raise DataValidationError with the bad-data message,
    through the TypeError of fromisoformat; the four fields before it are
    assigned. *)
Theorem deserialize_date_not_a_string
    (more : string → option date) (today : date)
    (m : gmap string value) (a : Account) (n e ad v : value) :
  m !! "name" = Some n → m !! "email" = Some e → m !! "address" = Some ad →
  m !! "date_joined" = Some v → truthy v = true → (∀ s, v ≠ VStr s) →
  run (deserialize more today (VDict m)) a
  = (with_fields m n e ad a,
     inl (DataValidationError
            (bad_data_prefix +:+ "fromisoformat: argument must be str"))).
Proof.
  intros Hn He Ha Hd Ht Hv.
  rewrite (deserialize_dict more today m a n e ad Hn He Ha), Hd.
  cbn [from_option Datatypes.id]. rewrite Ht.
  destruct v; try reflexivity. by destruct (Hv s).
Qed.

Lemma deserialize_date_not_a_string_witness :
  run (deserialize no_other_form new_year
         (VDict (<["date_joined" := VInt 20240229]> sample_fields)))
      Account_new
  = (with_fields (<["date_joined" := VInt 20240229]> sample_fields)
       (VStr "Ann") (VStr "ann@example.com") (VStr "1 Main St") Account_new,
     inl (DataValidationError
            (bad_data_prefix +:+ "fromisoformat: argument must be str"))).
Proof.
  apply (deserialize_date_not_a_string no_other_form new_year
           (<["date_joined" := VInt 20240229]> sample_fields) Account_new
           (VStr "Ann") (VStr "ann@example.com") (VStr "1 Main St")
           (VInt 20240229));
    try reflexivity.
  discriminate.
Defined.

(** X3: when the required keys are there and date_joined is missing, None,
    the empty string or any other value that is false as a condition,
    deserialize succeeds, returns the instance, and date_joined is the day
    of the call; phone_number is the mapping's, or None without the key,
    whatever the instance held. *)
Theorem deserialize_date_defaults_to_today
    (more : string → option date) (today : date)
    (m : gmap string value) (a : Account) (n e ad : value) :
  m !! "name" = Some n → m !! "email" = Some e → m !! "address" = Some ad →
  truthy (default VNone (m !! "date_joined")) = false →
  ∃ y, run (deserialize more today (VDict m)) a = (y, inr y)
       ∧ name y = n ∧ email y = e ∧ address y = ad
       ∧ phone_number y = default VNone (m !! "phone_number")
       ∧ date_joined y = VDate today.
Proof.
  intros Hn He Ha Ht.
  rewrite (deserialize_dict more today m a n e ad Hn He Ha). cbv zeta.
  rewrite Ht. eexists. split; [reflexivity|]. repeat split.
Qed.

Lemma deserialize_date_defaults_to_today_witness :
  ∃ y, run (deserialize no_other_form new_year
              (VDict (<["date_joined" := VStr EmptyString]> sample_fields)))
           ann = (y, inr y)
       ∧ name y = VStr "Ann" ∧ email y = VStr "ann@example.com"
       ∧ address y = VStr "1 Main St"
       ∧ phone_number y
         = default VNone
             ((<["date_joined" := VStr EmptyString]> sample_fields)
                !! "phone_number")
       ∧ date_joined y = VDate new_year.
Proof.
  apply (deserialize_date_defaults_to_today no_other_form new_year
           (<["date_joined" := VStr EmptyString]> sample_fields) ann
           (VStr "Ann") (VStr "ann@example.com") (VStr "1 Main St"));
    reflexivity.
Defined.

(** X4: whatever the input and the outcome, deserialize leaves the id and
    the session state of the instance as they were, so it never persists
    nor detaches a record; when it succeeds, what it returns is the
    instance. *)
Theorem deserialize_never_persists
    (more : string → option date) (today : date) (data : value)
    (a : Account) :
  id (run (deserialize more today data) a).1 = id a
  ∧ sa_state (run (deserialize more today data) a).1 = sa_state a
  ∧ match (run (deserialize more today data) a).2 with
    | inr y => y = (run (deserialize more today data) a).1
    | inl _ => True
    end.
Proof.
  destruct data as [| | | | | | |m]; try (by repeat split).
  destruct (m !! "name") as [n|] eqn:Hn.
  2:{ run_method. rewrite Hn. by repeat split. }
  destruct (m !! "email") as [e|] eqn:He.
  2:{ run_method. rewrite Hn, He. by repeat split. }
  destruct (m !! "address") as [ad|] eqn:Ha.
  2:{ run_method. rewrite Hn, He, Ha. by repeat split. }
  rewrite (deserialize_dict more today m a n e ad Hn He Ha). cbv zeta.
  destruct (truthy _); [|by repeat split].
  destruct (default VNone (m !! "date_joined")); try (by repeat split).
  destruct (fromisoformat s); [by repeat split|].
  destruct (more s); by repeat split.
Qed.

(** The keys that deserialize reads. *)
Definition deserialized_keys : list string :=
  ["name"; "email"; "address"; "phone_number"; "date_joined"].

(** X5: deserialize reads five keys and no other: a binding for any other
    key, such as id, changes neither the outcome nor the instance. *)
Theorem deserialize_ignores_other_keys
    (more : string → option date) (today : date)
    (m : gmap string value) (k : string) (v : value)
    (a : Account) :
  k ∉ deserialized_keys →
  run (deserialize more today (VDict (<[k := v]> m))) a
  = run (deserialize more today (VDict m)) a.
Proof.
  unfold deserialized_keys. rewrite !not_elem_of_cons. intros (?&?&?&?&?&_).
  run_method. by rewrite !lookup_insert_ne.
Qed.

Lemma deserialize_ignores_other_keys_witness :
  run (deserialize no_other_form new_year
           (VDict (<["id" := VInt 7]> sample_fields)))
      Account_new
  = run (deserialize no_other_form new_year (VDict sample_fields)) Account_new
  ∧ id (run (deserialize no_other_form new_year
           (VDict (<["id" := VInt 7]> sample_fields)))
            Account_new).1 = VNone.
Proof.
  split; [|reflexivity].
  apply (deserialize_ignores_other_keys no_other_form new_year sample_fields
           "id" (VInt 7)
           Account_new).
  unfold deserialized_keys. rewrite !not_elem_of_cons.
  repeat split; try discriminate. apply not_elem_of_nil.
Defined.

(** X6: deserializing a mapping whose date_joined is a calendar-date string
    and serializing the result gives the mapping's own values back for name,
    email, address and date_joined, None for a missing phone_number, and
    the id the instance had. *)
Theorem serialize_deserialize_roundtrip
    (more : string → option date) (today : date)
    (m : gmap string value) (a : Account) (n e ad : value)
    (s : string) (d : date) :
  m !! "name" = Some n → m !! "email" = Some e → m !! "address" = Some ad →
  m !! "date_joined" = Some (VStr s) → fromisoformat s = Some d →
  ∃ y out,
    run (deserialize more today (VDict m)) a = (y, inr y)
    ∧ run serialize y = (y, inr (VDict out))
    ∧ out !! "id" = Some (id a)
    ∧ out !! "name" = m !! "name" ∧ out !! "email" = m !! "email"
    ∧ out !! "address" = m !! "address"
    ∧ out !! "phone_number" = Some (default VNone (m !! "phone_number"))
    ∧ out !! "date_joined" = m !! "date_joined".
Proof.
  intros Hn He Ha Hd Hf.
  destruct (isoformat_fromisoformat s d Hf) as [Hiso Hv].
  rewrite (deserialize_dict more today m a n e ad Hn He Ha), Hd.
  cbn [from_option Datatypes.id truthy].
  assert (Hne : String.eqb s EmptyString = false).
  { apply String.eqb_neq. intros ->. discriminate Hf. }
  rewrite Hne, Hf. cbn [negb]. cbv zeta.
  eexists _, (serialized _ (isoformat d)). split; [reflexivity|].
  split; [by apply serialize_date|].
  destruct (serialized_lookup
              (set_date_joined (VDate d)
                 (set_phone_number (default VNone (m !! "phone_number"))
                    (set_address ad (set_email e (set_name n a)))))
              (isoformat d)) as (Hi & H1 & H2 & H3 & H4 & H5).
  rewrite Hi, H1, H2, H3, H4, H5, Hn, He, Ha, Hiso. repeat split.
Qed.

Lemma serialize_deserialize_roundtrip_witness :
  ∃ y out,
    run (deserialize no_other_form new_year
           (VDict (<["date_joined" := VStr "2024-02-29"]> sample_fields)))
        Account_new = (y, inr y)
    ∧ run serialize y = (y, inr (VDict out))
    ∧ out !! "date_joined" = Some (VStr "2024-02-29")
    ∧ out !! "name" = Some (VStr "Ann").
Proof.
  destruct (serialize_deserialize_roundtrip no_other_form new_year
              (<["date_joined" := VStr "2024-02-29"]> sample_fields)
              Account_new (VStr "Ann") (VStr "ann@example.com")
              (VStr "1 Main St") "2024-02-29" leap_day)
    as (y & out & H1 & H2 & _ & Hn & _ & _ & _ & Hd);
    try reflexivity.
  exists y, out. repeat split; assumption.
Defined.

(** ** The persistent base: update, delete, all, find_by_name *)

Lemma update_persistent cls drv accepts a e k r :
  sa_state a = Persistent k → id a = VInt k →
  to_row drv None a = Some r → accepts r = true → is_Some (accounts e !! k) →
  run (PersistentBase.update cls drv accepts) (mkCtx a e)
  = (mkCtx (instance_of k r)
           (mkEnv (log e ++ [("Updating %s", [name a])])
                  (<[k := r]> (accounts e)) (next_id e)),
     inr tt).
Proof.
  intros Hs Hi Hr Hacc [r0 Hk].
  destruct a as [i n em ad ph dj st]. simpl in Hs, Hi. subst st i.
  run_store. cbv beta iota.
  rewrite Hr. cbv beta iota. cbn [ctx_self ctx_env accounts next_id].
  rewrite bool_decide_eq_false_2 by (rewrite Hk; discriminate).
  rewrite Hacc, bool_decide_eq_true_2 by done. cbn [andb orb].
  by rewrite insert_delete_eq.
Qed.

(** A record whose attributes are those of a row is the instance of that
    row. *)
Lemma instance_of_to_row drv a k r :
  sa_state a = Persistent k → id a = VInt k → well_typed a = true →
  to_row drv None a = Some r → instance_of k r = a.
Proof.
  intros Hs Hi Ht Hr.
  destruct (to_row_typed _ _ _ _ Ht Hr) as (Hn & He & Ha & Hp & _ & Hd).
  destruct a as [i n em ad ph dj st]. simpl in *. subst i st.
  unfold instance_of. by rewrite Hn, He, Ha, Hp, (Hd eq_refl).
Qed.

Definition ann_moved : Account :=
  set_address (VStr "9 Elm St") (instance_of 1 ann_row).
Definition ann_moved_row : Row :=
  mkRow (Some "Ann") (Some "ann@example.com") (Some "9 Elm St") None
        leap_day.

(** X7: update on a persisted record whose attributes the store accepts
    writes them to the row under the record's id and changes no other row;
    the record keeps its id, and find with that id then returns the record
    with the attributes it has now.  When the attributes have the types of
    their columns, the update leaves the record as it was. *)
Theorem update_then_find
    (cls : AccountClass) (drv : Driver) (accepts : Row → bool)
    (a : Account) (e : Env) (k : Z) (r : Row) :
  persisted a k e → to_row drv None a = Some r → accepts r = true →
  ∃ c' e1,
    run (PersistentBase.update cls drv accepts) (mkCtx a e) = (c', inr tt)
    ∧ (well_typed a = true → ctx_self c' = a)
    ∧ id (ctx_self c') = id a
    ∧ accounts (ctx_env c') = <[k := r]> (accounts e)
    ∧ size (accounts (ctx_env c')) = size (accounts e)
    ∧ next_id (ctx_env c') = next_id e
    ∧ (∀ j, j ≠ k → accounts (ctx_env c') !! j = accounts e !! j)
    ∧ run (PersistentBase.find k) (ctx_env c')
      = (e1, inr (Some (ctx_self c'))).
Proof.
  intros (Hs & Hi & Hk) Hr Hacc. eexists _, _.
  rewrite (update_persistent _ _ _ _ _ _ _ Hs Hi Hr Hacc Hk).
  split; [reflexivity|]. cbn [ctx_self ctx_env accounts next_id].
  split; [intros Ht; by apply (instance_of_to_row drv)|].
  split; [by rewrite Hi|]. split; [reflexivity|].
  split; [by apply map_size_insert_Some|].
  split; [reflexivity|].
  split. { intros j Hj. by rewrite lookup_insert_ne. }
  rewrite find_run. cbn [accounts]. by rewrite lookup_insert_eq.
Qed.

Lemma update_then_find_witness :
  ∃ c' e1,
    run (PersistentBase.update (import_models new_year) sample_driver
           always_accepts)
        (mkCtx ann_moved one_account) = (c', inr tt)
    ∧ ctx_self c' = ann_moved
    ∧ accounts (ctx_env c') = <[1%Z := ann_moved_row]> (accounts one_account)
    ∧ run (PersistentBase.find 1) (ctx_env c') = (e1, inr (Some ann_moved))
    ∧ address ann_moved ≠ address (instance_of 1 ann_row).
Proof.
  destruct (update_then_find (import_models new_year) sample_driver
              always_accepts ann_moved one_account 1 ann_moved_row)
    as (c' & e1 & H1 & Hsame & _ & H2 & _ & _ & _ & H3).
  - split; [reflexivity|]. split; [reflexivity|]. by exists ann_row.
  - reflexivity.
  - reflexivity.
  - rewrite (Hsame eq_refl) in H3. exists c', e1.
    split; [exact H1|]. split; [by apply Hsame|]. split; [exact H2|].
    split; [exact H3 | discriminate].
Defined.

(** X8: update on a record that was never created raises nothing and stores
    nothing: the session does not hold the record, so the commit has no
    statement for it. *)
Theorem update_transient_stores_nothing
    (cls : AccountClass) (drv : Driver) (accepts : Row → bool)
    (a : Account) (e : Env) :
  sa_state a = Transient →
  ∃ c', run (PersistentBase.update cls drv accepts) (mkCtx a e) = (c', inr tt)
        ∧ ctx_self c' = a
        ∧ accounts (ctx_env c') = accounts e
        ∧ next_id (ctx_env c') = next_id e
        ∧ log (ctx_env c') = log e ++ [("Updating %s", [name a])].
Proof.
  intros Hs. destruct a as [i n em ad ph dj st]. simpl in Hs. subst st.
  eexists. split; [reflexivity|]. repeat split.
Qed.

Lemma update_transient_stores_nothing_witness :
  ∃ c', run (PersistentBase.update (import_models new_year)
         sample_driver always_accepts)
            (mkCtx ann empty_env) = (c', inr tt)
        ∧ ctx_self c' = ann
        ∧ accounts (ctx_env c') = accounts empty_env
        ∧ next_id (ctx_env c') = next_id empty_env
        ∧ log (ctx_env c') = log empty_env ++ [("Updating %s", [name ann])].
Proof.
  apply (update_transient_stores_nothing (import_models new_year)
           sample_driver always_accepts ann empty_env).
  reflexivity.
Defined.

(** X9: delete on a record that was never created raises the session's
    error and removes nothing; the record is as it was. *)
Theorem delete_transient_raises
    (cls : AccountClass) (drv : Driver) (accepts : Row → bool)
    (a : Account) (e : Env) :
  sa_state a = Transient →
  ∃ c', run (PersistentBase.delete cls drv accepts) (mkCtx a e)
        = (c', inl SQLAlchemyError)
        ∧ ctx_self c' = a
        ∧ accounts (ctx_env c') = accounts e
        ∧ next_id (ctx_env c') = next_id e.
Proof.
  intros Hs. destruct a as [i n em ad ph dj st]. simpl in Hs. subst st.
  eexists. split; [reflexivity|]. repeat split.
Qed.

Lemma delete_transient_raises_witness :
  ∃ c', run (PersistentBase.delete (import_models new_year)
         sample_driver always_accepts)
            (mkCtx ann one_account) = (c', inl SQLAlchemyError)
        ∧ ctx_self c' = ann
        ∧ accounts (ctx_env c') = accounts one_account
        ∧ next_id (ctx_env c') = next_id one_account.
Proof.
  apply (delete_transient_raises (import_models new_year)
         sample_driver always_accepts
           ann one_account).
  reflexivity.
Defined.




#[local] Instance instance_of_inj : Inj (=) (=) (uncurry instance_of).
Proof.
  intros [k [n e ad ph d]] [k' [n' e' ad' ph' d']]. unfold instance_of.
  cbn [uncurry row_name row_email row_address row_phone_number
       row_date_joined]. intros H. injection H as Hk Hn He Ha Hp Hd _.
  assert (Ht : ∀ o o', text_value o = text_value o' → o = o').
  { intros [?|] [?|]; simpl; congruence. }
  apply Ht in Hn, He, Ha, Hp. congruence.
Qed.

(** X11: after a successful create, all returns the created record together
    with every record it returned before, one record more than before, and
    no record twice. *)
Theorem create_then_all
    (cls : AccountClass) (drv : Driver) (accepts : Row → bool)
    (a : Account) (e : Env)
    (c' : Ctx) :
  run (PersistentBase.create cls drv accepts) (mkCtx a e) = (c', inr tt) →
  ∃ e0 l0 e1 l1,
    run PersistentBase.all e = (e0, inr l0)
    ∧ run PersistentBase.all (ctx_env c') = (e1, inr l1)
    ∧ ctx_self c' ∈ l1
    ∧ (∀ p, p ∈ l0 → p ∈ l1)
    ∧ length l1 = S (length l0)
    ∧ NoDup l1.
Proof.
  intros Hrun.
  destruct (create_success _ _ _ _ _ _ Hrun) as (r & _ & _ & Hfree & ->).
  eexists _, _, _, _. rewrite !all_run. cbn [ctx_env ctx_self accounts].
  split; [reflexivity|]. split; [reflexivity|]. split; [|split; [|split]].
  - apply list_elem_of_fmap. exists (next_id e, r). split; [done|].
    apply elem_of_map_to_list. apply lookup_insert_eq.
  - intros p [[j rj] [-> Hj]]%list_elem_of_fmap.
    apply elem_of_map_to_list in Hj. apply list_elem_of_fmap.
    exists (j, rj). split; [done|]. apply elem_of_map_to_list.
    rewrite lookup_insert_ne; [done|]. congruence.
  - rewrite !length_fmap, !length_map_to_list.
    by apply map_size_insert_None.
  - apply (NoDup_fmap_2 _), NoDup_map_to_list.
Qed.

Lemma create_then_all_witness :
  ∃ c' e1 l1,
    run (PersistentBase.create (import_models new_year)
           sample_driver always_accepts)
        (mkCtx bob one_account) = (c', inr tt)
    ∧ run PersistentBase.all (ctx_env c') = (e1, inr l1)
    ∧ ctx_self c' ∈ l1 ∧ instance_of 1 ann_row ∈ l1 ∧ length l1 = 2.
Proof.
  assert (Hrun :
    ∃ c', run (PersistentBase.create (import_models new_year)
           sample_driver always_accepts)
              (mkCtx bob one_account) = (c', inr tt))
    by (eexists; reflexivity).
  destruct Hrun as [c' Hrun].
  destruct (create_then_all _ _ _ _ _ _ Hrun)
    as (e0 & l0 & e1 & l1 & H0 & H1 & Hin & Hold & Hlen & _).
  rewrite all_run in H0. injection H0 as _ <-.
  exists c', e1, l1. split; [exact Hrun|]. split; [exact H1|].
  split; [exact Hin|]. split.
  - apply Hold. apply list_elem_of_fmap. exists (1%Z, ann_row).
    split; [reflexivity|]. apply elem_of_map_to_list. reflexivity.
  - rewrite Hlen, length_fmap, length_map_to_list. reflexivity.
Defined.

Lemma find_by_name_run n e :
  run (find_by_name n) e
  = (mkEnv (log e ++ [("Processing name query for %s ...", [VStr n])])
           (accounts e) (next_id e),
     inr (uncurry instance_of
            <$> filter (λ kr, row_name kr.2 = Some n)
                  (map_to_list (accounts e)))).
Proof. reflexivity. Qed.

(** X12: find_by_name returns the stored records whose name is exactly the
    given string, each once, and leaves the table as it is; a record whose
    name is NULL or another string is never returned. *)
Theorem find_by_name_exact (n : string) (e : Env) :
  ∃ e1 l,
    run (find_by_name n) e = (e1, inr l)
    ∧ accounts e1 = accounts e ∧ next_id e1 = next_id e
    ∧ (∀ p, p ∈ l ↔ ∃ k r, accounts e !! k = Some r
                            ∧ row_name r = Some n ∧ p = instance_of k r)
    ∧ (∀ p, p ∈ l → name p = VStr n)
    ∧ NoDup l.
Proof.
  eexists _, _. rewrite find_by_name_run.
  split; [reflexivity|]. split; [reflexivity|]. split; [reflexivity|].
  assert (Hiff : ∀ p,
    p ∈ uncurry instance_of
          <$> filter (λ kr, row_name kr.2 = Some n) (map_to_list (accounts e))
    ↔ ∃ k r, accounts e !! k = Some r ∧ row_name r = Some n
             ∧ p = instance_of k r).
  { intros p. rewrite list_elem_of_fmap. split.
    - intros [[k r] [-> [Hn Hk]%list_elem_of_filter]].
      apply elem_of_map_to_list in Hk. by exists k, r.
    - intros (k & r & Hk & Hn & ->). exists (k, r). split; [done|].
      apply list_elem_of_filter. split; [done|].
      by apply elem_of_map_to_list. }
  split; [exact Hiff|]. split.
  - intros p (k & r & _ & Hn & ->)%Hiff. cbn [instance_of name].
    by rewrite Hn.
  - apply (NoDup_fmap_2 _), NoDup_filter, NoDup_map_to_list.
Qed.



(** ** Callers: the loops of the test cases *)

(** A call [self.method()] from outside: the method runs on [self] and the
    process-wide state; the caller keeps the mutated instance. *)
Definition call {A} (method : M Ctx A) (self : Account) : M Env (Account * A) :=
  λ e, match method (mkCtx self e) with
       | (c, inr x) => (ctx_env c, inr (ctx_self c, x))
       | (c, inl ex) => (ctx_env c, inl ex)
       end.

(** [for account in batch: account.create()], as in
    [test_list_all_accounts]; the result is the batch after the loop. *)
Fixpoint create_each (cls : AccountClass) (drv : Driver) (accepts : Row → bool)
    (batch : list Account) : M Env (list Account) :=
  match batch with
  | [] => mret []
  | account :: rest =>
      r ← call (PersistentBase.create cls drv accepts) account;
      rest' ← create_each cls drv accepts rest;
      mret (r.1 :: rest')
  end.

(** A transient record that the store takes. *)
Definition storable (cls : AccountClass) (drv : Driver) (accepts : Row → bool)
    (a : Account)
    : Prop :=
  sa_state a = Transient
  ∧ ∃ r, to_row drv (Some (date_joined_default cls)) a = Some r
         ∧ accepts r = true.

(** X14: creating a batch of transient records that the store takes, one
    after the other, succeeds for all of them; the records get consecutive
    ids starting at the next value of the sequence, in the order of the
    batch; the table grows by the size of the batch and keeps every row it
    had; and all then returns that many records more. *)
Theorem create_each_all
    (cls : AccountClass) (drv : Driver) (accepts : Row → bool)
    (batch : list Account)
    (e : Env) :
  sequence_fresh e → Forall (storable cls drv accepts) batch →
  ∃ e' created e1 l,
    run (create_each cls drv accepts batch) e = (e', inr created)
    ∧ length created = length batch
    ∧ (∀ i a', created !! i = Some a' →
         id a' = VInt (next_id e + Z.of_nat i)
         ∧ sa_state a' = Persistent (next_id e + Z.of_nat i)
         ∧ is_Some (accounts e' !! (next_id e + Z.of_nat i)%Z))
    ∧ (∀ k r, accounts e !! k = Some r → accounts e' !! k = Some r)
    ∧ size (accounts e') = size (accounts e) + length batch
    ∧ next_id e' = (next_id e + Z.of_nat (length batch))%Z
    ∧ sequence_fresh e'
    ∧ run PersistentBase.all e' = (e1, inr l)
    ∧ length l = size (accounts e) + length batch.
Proof.
  intros Hf Hall.
  cut (∃ e' created,
    run (create_each cls drv accepts batch) e = (e', inr created)
    ∧ length created = length batch
    ∧ (∀ i a', created !! i = Some a' →
         id a' = VInt (next_id e + Z.of_nat i)
         ∧ sa_state a' = Persistent (next_id e + Z.of_nat i)
         ∧ is_Some (accounts e' !! (next_id e + Z.of_nat i)%Z))
    ∧ (∀ k r, accounts e !! k = Some r → accounts e' !! k = Some r)
    ∧ size (accounts e') = size (accounts e) + length batch
    ∧ next_id e' = (next_id e + Z.of_nat (length batch))%Z
    ∧ sequence_fresh e').
  { intros (e' & created & H1 & H2 & H3 & H4 & H5 & H6 & H7).
    eexists e', created, _, _. rewrite all_run.
    repeat (split; [assumption|]). split; [reflexivity|].
    by rewrite length_fmap, length_map_to_list. }
  revert e Hf. induction Hall as [|a rest [Hs (r & Hr & Hacc)] _ IH];
    intros e Hf.
  - exists e, []. split; [reflexivity|]. split; [reflexivity|].
    split; [intros i a' Hi; by rewrite lookup_nil in Hi|].
    split; [done|]. cbn [length]. split; [lia|]. split; [lia|]. done.
  - pose proof (create_succeeds cls drv accepts a e r Hf Hs Hr Hacc) as Hc.
    set (e1 := mkEnv (log (creating a e)) (<[next_id e := r]> (accounts e))
                     (next_id e + 1)) in *.
    assert (Hf1 : sequence_fresh e1) by (by apply sequence_fresh_insert).
    destruct (IH e1 Hf1) as (e' & created & H1 & H2 & H3 & H4 & H5 & H6 & H7).
    exists e', (instance_of (next_id e) r :: created).
    split.
    { unfold run in *. cbn [create_each]. unfold mbind, M_bind, bind, call.
      rewrite Hc. cbv beta iota. cbn [ctx_env ctx_self]. rewrite H1.
      reflexivity. }
    split; [cbn [length]; by rewrite H2|].
    assert (Hnew : accounts e' !! next_id e = Some r).
    { apply H4. subst e1. cbn [accounts]. apply lookup_insert_eq. }
    split.
    { intros [|i] a' Hi.
      - injection Hi as <-. rewrite Z.add_0_r.
        split; [done|]. split; [done|]. by rewrite Hnew.
      - destruct (H3 i a' Hi) as (Hi1 & Hi2 & Hi3).
        subst e1. cbn [next_id] in Hi1, Hi2, Hi3.
        replace (next_id e + Z.of_nat (S i))%Z
          with (next_id e + 1 + Z.of_nat i)%Z by lia.
        done. }
    split.
    { intros k r0 Hk. apply H4. subst e1. cbn [accounts].
      rewrite lookup_insert_ne; [done|].
      intros <-. rewrite (sequence_fresh_next e Hf) in Hk. discriminate. }
    subst e1. cbn [accounts next_id length] in *.
    rewrite map_size_insert_None in H5 by (by apply sequence_fresh_next).
    split; [lia|]. split; [lia|]. done.
Qed.

Lemma create_each_all_witness :
  ∃ e' created e1 l,
    run (create_each (import_models new_year)
           sample_driver always_accepts [ann; bob])
        one_account = (e', inr created)
    ∧ length created = 2
    ∧ (id <$> created) = [VInt 2; VInt 3]
    ∧ run PersistentBase.all e' = (e1, inr l)
    ∧ length l = 3.
Proof.
  destruct (create_each_all (import_models new_year)
         sample_driver always_accepts
              [ann; bob] one_account)
    as (e' & created & e1 & l & H1 & H2 & H3 & _ & _ & _ & _ & H8 & H9).
  - intros k [r Hk]. cbn [one_account accounts next_id] in *.
    destruct (decide (k = 1%Z)) as [->|Hne]; [lia|].
    rewrite lookup_insert_ne, lookup_empty in Hk by done. discriminate.
  - repeat constructor; eexists; split; reflexivity.
  - exists e', created, e1, l. split; [exact H1|]. split; [exact H2|].
    split; [|split; [exact H8 | exact H9]].
    destruct created as [|x [|y [|]]]; try discriminate H2.
    destruct (H3 0 x eq_refl) as (Hx & _).
    destruct (H3 1 y eq_refl) as (Hy & _).
    cbn [fmap list_fmap]. rewrite Hx, Hy. reflexivity.
Defined.

(** X15: ids are not given twice: after a persisted record was deleted, a
    successful create gets an id above the deleted one, and find with the
    deleted id still returns None. *)
Theorem delete_then_create_new_id
    (cls : AccountClass) (drv : Driver) (accepts : Row → bool)
    (a b : Account) (e : Env)
    (k : Z) (c1 c2 : Ctx) :
  sequence_fresh e → persisted a k e →
  run (PersistentBase.delete cls drv accepts) (mkCtx a e) = (c1, inr tt) →
  run (PersistentBase.create cls drv accepts) (mkCtx b (ctx_env c1))
  = (c2, inr tt) →
  ∃ j e2, id (ctx_self c2) = VInt j ∧ (k < j)%Z
          ∧ run (PersistentBase.find k) (ctx_env c2) = (e2, inr None)
          ∧ sequence_fresh (ctx_env c2).
Proof.
  intros Hf (Hs & _ & Hk) Hdel Hcre.
  rewrite (delete_persistent _ _ _ _ _ _ Hs) in Hdel. injection Hdel as <-.
  destruct (create_success _ _ _ _ _ _ Hcre) as (r & _ & _ & _ & ->).
  cbn [ctx_env ctx_self accounts next_id instance_of id] in *.
  pose proof (Hf k Hk) as Hlt.
  eexists _, _. split; [reflexivity|]. split; [exact Hlt|].
  rewrite find_run. cbn [accounts].
  rewrite lookup_insert_ne by lia. rewrite lookup_delete_eq.
  split; [reflexivity|].
  intros j. cbn [accounts next_id]. rewrite lookup_insert.
  case_decide; [lia|]. rewrite lookup_delete. case_decide; [by intros [? ?]|].
  intros Hj. specialize (Hf j Hj). lia.
Qed.

Lemma delete_then_create_new_id_witness :
  ∃ c1 c2 e2,
    run (PersistentBase.delete (import_models new_year)
           sample_driver always_accepts)
        (mkCtx (instance_of 1 ann_row) one_account) = (c1, inr tt)
    ∧ run (PersistentBase.create (import_models new_year)
           sample_driver always_accepts)
          (mkCtx bob (ctx_env c1)) = (c2, inr tt)
    ∧ id (ctx_self c2) = VInt 2
    ∧ run (PersistentBase.find 1) (ctx_env c2) = (e2, inr None).
Proof.
  assert (Hd : ∃ c1,
    run (PersistentBase.delete (import_models new_year)
           sample_driver always_accepts)
        (mkCtx (instance_of 1 ann_row) one_account) = (c1, inr tt))
    by (eexists; reflexivity).
  destruct Hd as [c1 Hd].
  assert (Hc : ∃ c2,
    run (PersistentBase.create (import_models new_year)
           sample_driver always_accepts)
        (mkCtx bob (ctx_env c1)) = (c2, inr tt) ∧ id (ctx_self c2) = VInt 2).
  { injection Hd as <-. eexists. split; reflexivity. }
  destruct Hc as (c2 & Hc & Hid).
  destruct (delete_then_create_new_id (import_models new_year)
         sample_driver always_accepts
              (instance_of 1 ann_row) bob one_account 1 c1 c2)
    as (j & e2 & _ & _ & Hfind & _); [| |exact Hd|exact Hc|].
  - intros k [r Hk]. cbn [one_account accounts next_id] in *.
    destruct (decide (k = 1%Z)) as [->|Hne]; [lia|].
    rewrite lookup_insert_ne, lookup_empty in Hk by done. discriminate.
  - split; [reflexivity|]. split; [reflexivity|]. by exists ann_row.
  - by exists c1, c2, e2.
Defined.

(** X16: delete on a persisted record leaves all with one record fewer. *)
Theorem delete_decrements_all
    (cls : AccountClass) (drv : Driver) (accepts : Row → bool)
    (a : Account) (e : Env)
    (k : Z) :
  persisted a k e →
  ∃ c1 e0 l0 e1 l1,
    run PersistentBase.all e = (e0, inr l0)
    ∧ run (PersistentBase.delete cls drv accepts) (mkCtx a e) = (c1, inr tt)
    ∧ run PersistentBase.all (ctx_env c1) = (e1, inr l1)
    ∧ length l0 = S (length l1)
    ∧ (∀ p, p ∈ l1 → p ∈ l0).
Proof.
  intros (Hs & _ & [r0 Hk]). eexists _, _, _, _, _.
  rewrite (delete_persistent _ _ _ _ _ _ Hs), !all_run.
  split; [reflexivity|]. split; [reflexivity|].
  cbn [ctx_env accounts]. split; [reflexivity|]. split.
  - rewrite !length_fmap, !length_map_to_list.
    rewrite <- (insert_id (accounts e) k r0 Hk) at 1.
    rewrite <- insert_delete_eq.
    apply map_size_insert_None, lookup_delete_eq.
  - intros p [[j rj] [-> Hj]]%list_elem_of_fmap.
    apply elem_of_map_to_list, lookup_delete_Some in Hj as [_ Hj].
    apply list_elem_of_fmap. exists (j, rj). split; [done|].
    by apply elem_of_map_to_list.
Qed.

Lemma delete_decrements_all_witness :
  ∃ c1 e0 l0 e1 l1,
    run PersistentBase.all one_account = (e0, inr l0)
    ∧ run (PersistentBase.delete (import_models new_year)
           sample_driver always_accepts)
          (mkCtx (instance_of 1 ann_row) one_account) = (c1, inr tt)
    ∧ run PersistentBase.all (ctx_env c1) = (e1, inr l1)
    ∧ length l0 = S (length l1)
    ∧ (∀ p, p ∈ l1 → p ∈ l0).
Proof.
  apply (delete_decrements_all (import_models new_year)
         sample_driver always_accepts
           (instance_of 1 ann_row) one_account 1).
  split; [reflexivity|]. split; [reflexivity|]. by exists ann_row.
Defined.

(** ** Product: the queries *)

Lemma drop_while_app {A} (p : A → bool) l m :
  drop_while p (l ++ m)
  = match drop_while p l with
    | [] => drop_while p m
    | l' => l' ++ m
    end.
Proof.
  induction l as [|x l IH]; simpl; [by destruct (drop_while p m)|].
  destruct (p x); [exact IH | reflexivity].
Qed.

(** Stripping takes padding off any string, numeral or not. *)
Lemma py_strip_padding_any chars pad1 s pad2 :
  Forall (λ c, c ∈ chars) (list_ascii_of_string pad1) →
  Forall (λ c, c ∈ chars) (list_ascii_of_string pad2) →
  py_strip chars (pad1 +:+ s +:+ pad2) = py_strip chars s.
Proof.
  intros H1 H2. unfold py_strip.
  set (p := λ c : ascii, bool_decide (c ∈ chars)).
  assert (Hp : ∀ l, Forall (λ c, c ∈ chars) l → Forall (λ c, p c = true) l).
  { intros l Hl. eapply Forall_impl; [exact Hl|].
    intros c Hin. by apply bool_decide_eq_true_2. }
  f_equal. rewrite !list_ascii_of_string_app.
  rewrite drop_while_all by auto. rewrite drop_while_app.
  destruct (drop_while p (list_ascii_of_string s)) as [|c l].
  - rewrite <- (app_nil_r (list_ascii_of_string pad2)).
    by rewrite drop_while_all by auto.
  - rewrite rev_app_distr.
    by rewrite drop_while_all by (apply Hp; by apply Forall_rev).
Qed.

(** X17: spaces and double quotes around a string argument never matter to
    find_by_price: with and without them it returns the same rows, or
    raises the same exception, and the table is as it was.  This holds for
    every string, numeral or not. *)
Theorem find_by_price_ignores_padding
    {R : Type} (price : R → decimal) (price_eq : decimal → decimal → bool)
    (st : Product.Store R) (pad1 s pad2 : string) :
  Forall (λ c, c ∈ strip_chars) (list_ascii_of_string pad1) →
  Forall (λ c, c ∈ strip_chars) (list_ascii_of_string pad2) →
  let find := Product.find_by_price R price price_eq in
  (run (find (Product.PriceStr (pad1 +:+ s +:+ pad2))) st).2
  = (run (find (Product.PriceStr s)) st).2
  ∧ Product.products R
      (run (find (Product.PriceStr (pad1 +:+ s +:+ pad2))) st).1
    = Product.products R st.
Proof.
  intros H1 H2 find. subst find. rewrite !find_by_price_str.
  rewrite (py_strip_padding_any _ _ _ _ H1 H2). cbv zeta.
  destruct (Decimal (py_strip strip_chars s)); split; reflexivity.
Qed.

Lemma find_by_price_ignores_padding_witness :
  (run (Product.find_by_price decimal (λ d, d) numeric_eqb
          (Product.PriceStr (quote_pad_left +:+ "abc" +:+ quote_pad_right)))
       price_list).2
  = inl InvalidOperation
  ∧ (run (Product.find_by_price decimal (λ d, d) numeric_eqb
            (Product.PriceStr "abc")) price_list).2
    = inl InvalidOperation.
Proof.
  destruct (find_by_price_ignores_padding (λ d : decimal, d) numeric_eqb
              price_list quote_pad_left "abc" quote_pad_right)
    as [Heq _].
  - repeat constructor; unfold strip_chars; set_solver.
  - repeat constructor; unfold strip_chars; set_solver.
  - split; [rewrite Heq|]; reflexivity.
Defined.

Lemma drop_while_snoc {A} (p : A → bool) l c :
  p c = false → ∃ l', drop_while p (l ++ [c]) = l' ++ [c].
Proof.
  intros Hc. rewrite drop_while_app. destruct (drop_while p l) as [|x l'].
  - exists []. simpl. by rewrite Hc.
  - by exists (x :: l').
Qed.

(** Stripping keeps a first character that is not to be stripped. *)
Lemma py_strip_keeps_head chars c s :
  c ∉ chars → ∃ s', py_strip chars (String c s) = String c s'.
Proof.
  intros Hc. unfold py_strip. cbn [list_ascii_of_string drop_while].
  rewrite bool_decide_eq_false_2 by done. cbn [rev].
  destruct (drop_while_snoc (λ c, bool_decide (c ∈ chars))
              (rev (list_ascii_of_string s)) c) as [l' ->].
  { by apply bool_decide_eq_false_2. }
  rewrite rev_app_distr. cbn [rev app]. eexists. reflexivity.
Qed.

(** No numeral begins with a single quote. *)
Lemma Decimal_single_quote s : Decimal (String single_quote s) = None.
Proof.
  unfold Decimal.
  destruct (py_strip_keeps_head white_space single_quote s) as [s' ->].
  { unfold white_space. rewrite list_elem_of_filter. intros [H _].
    discriminate H. }
  cbn [list_ascii_of_string]. rewrite filter_cons_True by discriminate.
  generalize (filter (λ c : ascii, c ≠ "_"%char) (list_ascii_of_string s')).
  intros l. reflexivity.
Qed.

(** X18: single quotes are not among the characters that find_by_price
    strips: a string argument that begins with a single quote, whatever
    follows, raises InvalidOperation, and the table is as it was. *)
Theorem find_by_price_single_quote_raises
    {R : Type} (price : R → decimal) (price_eq : decimal → decimal → bool)
    (st : Product.Store R) (s : string) :
  ∃ st', run (Product.find_by_price R price price_eq
                (Product.PriceStr (String single_quote s))) st
         = (st', inl InvalidOperation)
         ∧ Product.products R st' = Product.products R st.
Proof.
  rewrite find_by_price_str.
  destruct (py_strip_keeps_head strip_chars single_quote s) as [s' ->].
  { unfold strip_chars. rewrite !not_elem_of_cons.
    repeat split; try discriminate. apply not_elem_of_nil. }
  rewrite Decimal_single_quote. cbv zeta. eexists. split; reflexivity.
Qed.

(** X19: find_by_availability without an argument is the query for the
    available products.  The queries for True and for False split the
    table: each returns rows with that flag only, in the order of the
    table, and together they return every row once. *)
Theorem find_by_availability_splits
    {R : Type} (available : R → bool) (st : Product.Store R) :
  ∃ st1 st2 st3 yes no,
    run (Product.find_by_availability R available (Some true)) st
    = (st1, inr yes)
    ∧ run (Product.find_by_availability R available (Some false)) st
      = (st2, inr no)
    ∧ run (Product.find_by_availability R available None) st = (st3, inr yes)
    ∧ st3 = st1
    ∧ Forall (λ r, available r = true) yes
    ∧ Forall (λ r, available r = false) no
    ∧ yes ++ no ≡ₚ Product.products R st
    ∧ yes `sublist_of` Product.products R st
    ∧ no `sublist_of` Product.products R st
    ∧ Product.products R st1 = Product.products R st
    ∧ Product.products R st2 = Product.products R st.
Proof.
  eexists _, _, _, _, _.
  split; [reflexivity|]. split; [reflexivity|]. split; [reflexivity|].
  split; [reflexivity|]. cbn [Product.products from_option].
  split; [apply Forall_forall; by intros r [? _]%list_elem_of_filter|].
  split; [apply Forall_forall; by intros r [? _]%list_elem_of_filter|].
  split; [|split; [apply sublist_filter|split;
                    [apply sublist_filter | split; reflexivity]]].
  rewrite (list_filter_iff (λ r, available r = false)
             (λ r, ¬ available r = true)).
  - apply filter_app_complement.
  - intros r. destruct (available r); split; try done; intros H; by destruct H.
Qed.

(** X20: find_by_category without an argument is the query for UNKNOWN.
    For every category the query returns exactly the rows of the table in
    that category, so a row is found under its own category and under no
    other; the log names the category. *)
Theorem find_by_category_buckets
    {R C : Type} `{EqDecision C} (UNKNOWN : C) (category_name : C → string)
    (category : R → C) (st : Product.Store R) (c : C) :
  let find := Product.find_by_category R C UNKNOWN category_name category in
  ∃ st' l,
    run (find (Some c)) st = (st', inr l)
    ∧ (∀ r, r ∈ l ↔ r ∈ Product.products R st ∧ category r = c)
    ∧ (∀ c' st2 l2, c' ≠ c → run (find (Some c')) st = (st2, inr l2) →
                    ∀ r, r ∈ l → r ∉ l2)
    ∧ l `sublist_of` Product.products R st
    ∧ Product.products R st' = Product.products R st
    ∧ Product.log R st'
      = Product.log R st
        ++ [("Processing category query for %s ...", [VStr (category_name c)])]
    ∧ run (find None) st = run (find (Some UNKNOWN)) st.
Proof.
  intros find. subst find. eexists _, _. split; [reflexivity|].
  cbn [Product.products Product.log from_option].
  split.
  { intros r. rewrite list_elem_of_filter. tauto. }
  split.
  { intros c' st2 l2 Hne Hrun r Hr. injection Hrun as _ <-.
    cbn [Product.products from_option].
    apply list_elem_of_filter in Hr as [Hc _].
    intros [Hc' _]%list_elem_of_filter. simpl in Hc, Hc'. congruence. }
  split; [apply sublist_filter|]. repeat split.
Qed.

(** ** Account.serialize: when it succeeds, and after create *)

(** X21: serialize succeeds exactly when date_joined holds a date;
    otherwise it raises AttributeError.  In both cases the instance is left
    as it was. *)
Theorem serialize_succeeds_iff_date (a : Account) :
  (run serialize a).1 = a
  ∧ ((∃ v, (run serialize a).2 = inr v) ↔ ∃ d, date_joined a = VDate d)
  ∧ ((∃ msg, (run serialize a).2 = inl (AttributeError msg))
     ↔ ∀ d, date_joined a ≠ VDate d).
Proof.
  destruct (date_joined a) as [| | | |d| | |] eqn:Hd.
  all: try (rewrite serialize_no_date by (rewrite Hd; discriminate);
            cbn [fst snd]; split; [reflexivity|]; split;
            [ split; [intros [v Hv]; discriminate Hv
                     | intros [d' Hd']; discriminate Hd']
            | split; [intros _ d'; discriminate | intros _; by eexists] ]).
  rewrite (serialize_date a d Hd). cbn [fst snd].
  split; [reflexivity|]. split.
  - split; [intros _; by exists d | intros _; by eexists].
  - split; [intros [msg Hm]; discriminate Hm | intros H; by destruct (H d)].
Qed.


